(** * GPU demand/capacity analytics: the metrics pipeline

    A shallow embedding of [src/analysis/metrics.py],
    [src/analysis/imbalance.py], [src/analysis/aggregations.py] and
    [src/generators/validators.py], with the properties the specification
    states about them.

    Conventions of the embedding.
    - A float64 value is a rational number or the missing value: [num] is
      [option Q], [None] standing for NaN.  Finite arithmetic is exact
      (no rounding, no overflow).  A division by zero, finite in no case,
      yields [None]; where the code divides a number other than zero by
      zero it gives an infinity, which [num] does not have.
    - A [Series] is the list of its values in positional order (pandas'
      default [RangeIndex]); a binary operation between two series pairs
      the values by position and yields NaN where one side has no value.
    - A [DataFrame] is a dictionary from column names to typed columns.
    - A Python exception is a value [Raise e] of the type [result]. *)

From Stdlib Require Import QArith Qminmax Lqa.
From stdpp Require Import gmap strings list fin_maps.

Open Scope Q_scope.
Open Scope string_scope.

(** ** Exceptions *)

Inductive exn : Type :=
  | KeyError (column : string)
  | ValueError (msg : string)
  | TypeError
  | AttributeError (msg : string)
  | ValidationError (msg : string).

Inductive result (A : Type) : Type :=
  | Ok (a : A)
  | Raise (e : exn).
Arguments Ok {A} a.
Arguments Raise {A} e.

(** Sequencing: the first exception raised ends the computation. *)
#[global] Instance result_ret : MRet result := λ A a, Ok a.
#[global] Instance result_bind : MBind result := λ A B k r,
  match r with
  | Ok a => k a
  | Raise e => Raise e
  end.

(** ** Numbers *)

Abbreviation num := (option Q).
Definition fin (q : Q) : num := Some q.
Definition NaN : num := None.
Arguments fin q%_Q.

Definition Qltb (x y : Q) : bool := negb (Qle_bool y x).

Definition lift2 (f : Q → Q → Q) (x y : num) : num :=
  match x, y with
  | Some a, Some b => Some (f a b)
  | _, _ => None
  end.

Definition nadd : num → num → num := lift2 Qplus.
Definition nsub : num → num → num := lift2 Qminus.
Definition nmul : num → num → num := lift2 Qmult.
Definition ndiv (x y : num) : num :=
  match x, y with
  | Some a, Some b => if Qeq_bool b 0 then None else Some (a / b)
  | _, _ => None
  end.

(** Comparisons with NaN are false, as in IEEE 754 and Python. *)
Definition cmp2 (f : Q → Q → bool) (x y : num) : bool :=
  match x, y with
  | Some a, Some b => f a b
  | _, _ => false
  end.

Definition nlt : num → num → bool := cmp2 Qltb.
Definition nle : num → num → bool := cmp2 Qle_bool.
Definition ngt (x y : num) : bool := nlt y x.
Definition nge (x y : num) : bool := nle y x.
Definition neq0 (x : num) : bool := cmp2 Qeq_bool x (fin 0).

Declare Scope num_scope.
Delimit Scope num_scope with num.
Infix "+" := nadd : num_scope.
Infix "-" := nsub : num_scope.
Infix "*" := nmul : num_scope.
Infix "/" := ndiv : num_scope.
Infix "<?" := nlt : num_scope.
Infix "<=?" := nle : num_scope.
Infix ">?" := ngt : num_scope.
Infix ">=?" := nge : num_scope.

(** Equality of values up to the representation of a rational. *)
Definition num_eq (x y : num) : Prop := option_Forall2 Qeq x y.

(** ** Series *)

Abbreviation Series := (list num).

Definition series_eq (s t : Series) : Prop := Forall2 num_eq s t.
Infix "=s=" := series_eq (at level 70, no associativity).

(** [a op b] on two series: values are paired by position; a position
    that only one of the two series has gets NaN. *)
Fixpoint series_binop (f : num → num → num) (a b : Series) : Series :=
  match a with
  | [] => fmap (λ _, NaN) b
  | x :: a' =>
      match b with
      | [] => NaN :: fmap (λ _, NaN) a'
      | y :: b' => f x y :: series_binop f a' b'
      end
  end.

Definition series_scalar (f : num → num → num) (a : Series) (c : num) : Series :=
  fmap (λ x, f x c) a.

(** [s.clip(lower, upper)]; NaN stays NaN. *)
Definition clip (lower upper : Q) (s : Series) : Series :=
  fmap (option_map (λ x, Qmin (Qmax x lower) upper)) s.

(** [s.clip(lower=lower)] *)
Definition clip_lower (lower : Q) (s : Series) : Series :=
  fmap (option_map (λ x, Qmax x lower)) s.

(** [s.fillna(v)] *)
Definition fillna (v : Q) (s : Series) : Series :=
  fmap (λ x, match x with Some a => Some a | None => Some v end) s.

(** The values that are present, in order. *)
Definition present (s : Series) : list Q := omap id s.

(** ** Efficiency classification ([metrics.py], [classify_efficiency]) *)

Definition classify_row (util pif_val : num) : string :=
  if (util <? fin 10)%num then "Idle"
  else if (util >=? fin 70)%num && (pif_val >=? fin 0.75)%num then "Efficient"
  else if (util >=? fin 70)%num && (pif_val <? fin 0.60)%num then "Bottlenecked"
  else if (util >=? fin 40)%num && (pif_val >=? fin 0.50)%num then "Moderate"
  else "Inefficient".

(** [pd.Series([classify_row(u, p) for u, p in zip(gpu_util, pif)],
    index=gpu_util.index)]: [zip] stops at the shorter argument, and
    [pd.Series] refuses a list whose length is not that of the index. *)
Definition classify_efficiency (gpu_util pif : Series) : result (list string) :=
  let labels := zip_with classify_row gpu_util pif in
  if decide (length labels = length gpu_util) then Ok labels
  else Raise (ValueError "Length of values does not match length of index").

(** ** Severity classification ([imbalance.py], [classify_imbalance_severity]) *)

Definition classify (cis_val dcr_val : num) : string :=
  if (cis_val >? fin 0.7)%num || (dcr_val >? fin 2.0)%num then "Critical"
  else if (cis_val >? fin 0.5)%num || (dcr_val >? fin 1.0)%num then "Warning"
  else if (cis_val >? fin 0.3)%num then "Moderate"
  else "Healthy".

Definition classify_imbalance_severity (cis dcr : Series) : result (list string) :=
  let labels := zip_with classify cis dcr in
  if decide (length labels = length cis) then Ok labels
  else Raise (ValueError "Length of values does not match length of index").

(** ** Ordered rule lists

    The reading of a decision table that the specification gives: a list
    of (predicate, label) rules tried from the top, the first rule whose
    predicate holds giving the label, and a default when none holds. *)

Definition rule : Type := (num → num → bool) * string.

Fixpoint first_match (rules : list rule) (default : string) (x y : num) : string :=
  match rules with
  | [] => default
  | (p, label) :: rest => if p x y then label else first_match rest default x y
  end.

(** The table of section 4.1 of the specification. *)
Definition efficiency_table : list rule :=
  [ (λ u _, (u <? fin 10)%num, "Idle");
    (λ u p, (u >=? fin 70)%num && (p >=? fin 0.75)%num, "Efficient");
    (λ u p, (u >=? fin 70)%num && (p <? fin 0.60)%num, "Bottlenecked");
    (λ u p, (u >=? fin 40)%num && (p >=? fin 0.50)%num, "Moderate") ].

(** The rule list of section 4.5 of the specification. *)
Definition severity_table : list rule :=
  [ (λ c d, (c >? fin 0.7)%num || (d >? fin 2.0)%num, "Critical");
    (λ c d, (c >? fin 0.5)%num || (d >? fin 1.0)%num, "Warning");
    (λ c _, (c >? fin 0.3)%num, "Moderate") ].


(** ** Reductions and windows *)

Fixpoint Qlist_min (x : Q) (l : list Q) : Q :=
  match l with
  | [] => x
  | y :: l' => Qlist_min (Qmin x y) l'
  end.

Fixpoint Qlist_max (x : Q) (l : list Q) : Q :=
  match l with
  | [] => x
  | y :: l' => Qlist_max (Qmax x y) l'
  end.

(** [s.min()] and [s.max()] skip NaN; they are NaN when no value is
    present. *)
Definition series_min (s : Series) : num :=
  match present s with
  | [] => NaN
  | x :: l => fin (Qlist_min x l)
  end.

Definition series_max (s : Series) : num :=
  match present s with
  | [] => NaN
  | x :: l => fin (Qlist_max x l)
  end.

(** [s.rolling(w, min_periods=1)]: the window of position [i] is the [w]
    positions that end at [i], fewer at the start of the series. *)
Definition rolling_window (w : nat) (s : Series) (i : nat) : Series :=
  drop (S i - w) (take (S i) s).

Definition rolling (agg : Series → num) (w : nat) (s : Series) : Series :=
  fmap (λ i, agg (rolling_window w s i)) (seq 0 (length s)).

Definition countb (p : Q → bool) (l : list Q) : Q :=
  inject_Z (Z.of_nat (length (List.filter p l))).

(** [s.rank(pct=True)]: the average rank of a value among the values
    present, ties sharing the mean of their ranks, divided by the number
    of values present; NaN keeps NaN. *)
Definition rank_pct (s : Series) : Series :=
  let vals := present s in
  fmap (option_map (λ x,
         (countb (λ y, Qltb y x) vals + (countb (λ y, Qeq_bool y x) vals + 1) / 2)
         / countb (λ _, true) vals)) s.

(** ** Normalization ([metrics.py], [normalize_series]) *)

(** Python's truth value of [window : Optional[int]]. *)
Definition truthy (window : option Z) : bool :=
  match window with
  | Some w => negb (w =? 0)%Z
  | None => false
  end.

Definition is_zero (x : num) : bool := cmp2 Qeq_bool x (fin 0).

Definition normalize_series (s : Series) (method : string) (window : option Z)
  : result Series :=
  if decide (method = "minmax") then
    if truthy window then
      let w := default 0%Z window in
      (* [s.rolling] rejects a negative window *)
      if decide (w < 0)%Z then Raise (ValueError "window must be an integer 0 or greater")
      else
        let min_val := rolling series_min (Z.to_nat w) s in
        let max_val := rolling series_max (Z.to_nat w) s in
        let range_val := series_binop nsub max_val min_val in
        let range_val := fmap (λ r, if is_zero r then fin 1 else r) range_val in
        Ok (series_binop ndiv (series_binop nsub s min_val) range_val)
    else
      let min_val := series_min s in
      let max_val := series_max s in
      let range_val := (max_val - min_val)%num in
      let range_val := if is_zero range_val then fin 1 else range_val in
      Ok (series_scalar ndiv (series_scalar nsub s min_val) range_val)
  else if decide (method = "percentile") then Ok (rank_pct s)
  else Raise (ValueError ("Unknown normalization method: " ++ method)).

(** ** Imbalance scores ([imbalance.py]) *)

Definition scalar_mul (c : Q) (s : Series) : Series :=
  fmap (λ x, (fin c * x)%num) s.

Definition calculate_demand_capacity_ratio
    (pending_workloads available_capacity : Series) (epsilon : Q) : Series :=
  series_binop ndiv pending_workloads
    (series_scalar nadd available_capacity (fin epsilon)).

Definition calculate_queue_pressure_score
    (pending_workloads wait_time_seconds : Series)
    (pending_weight wait_weight : Q) : result Series :=
  norm_pending ← normalize_series pending_workloads "minmax" None;
  norm_wait ← normalize_series wait_time_seconds "minmax" None;
  mret (series_binop nadd (scalar_mul pending_weight norm_pending)
                          (scalar_mul wait_weight norm_wait)).

Definition calculate_composite_imbalance_score
    (dcr efficiency_gap qps : Series)
    (dcr_weight gap_weight qps_weight : Q) : result Series :=
  norm_dcr ← normalize_series dcr "minmax" None;
  norm_gap ← normalize_series (clip_lower 0 efficiency_gap) "minmax" None;
  mret (series_binop nadd
          (series_binop nadd (scalar_mul dcr_weight norm_dcr)
                             (scalar_mul gap_weight norm_gap))
          (scalar_mul qps_weight qps)).

(** The default values of the keyword arguments. *)
Definition default_epsilon : Q := 1e-6.
Definition default_pending_weight : Q := 0.6.
Definition default_wait_weight : Q := 0.4.
Definition default_dcr_weight : Q := 0.5.
Definition default_gap_weight : Q := 0.3.
Definition default_qps_weight : Q := 0.2.

(** ** Tables *)

(** A column has one type for all its values, as a pandas column has a
    dtype: numbers, strings (dtype [object]) or timestamps (dtype
    [datetime64], in seconds since the epoch).  [None] is the missing
    value of the column: NaN, None or NaT. *)
Inductive Column : Type :=
  | NumCol (values : Series)
  | StrCol (values : list (option string))
  | TimeCol (values : list (option Z)).

Abbreviation DataFrame := (gmap string Column).

Definition column_length (col : Column) : nat :=
  match col with
  | NumCol s => length s
  | StrCol s => length s
  | TimeCol s => length s
  end.

(** [df[c]] *)
Definition getcol (df : DataFrame) (c : string) : result Column :=
  match df !! c with
  | Some col => Ok col
  | None => Raise (KeyError c)
  end.

(** The use of a column in arithmetic or in a comparison with a number. *)
Definition as_numeric (col : Column) : result Series :=
  match col with
  | NumCol s => Ok s
  | _ => Raise TypeError
  end.

Definition getnum (df : DataFrame) (c : string) : result Series :=
  getcol df c ≫= as_numeric.

(** The values of a column as dictionary keys: a string is itself; no
    other value is a key of a dictionary whose keys are strings. *)
Definition column_keys (col : Column) : list (option string) :=
  match col with
  | StrCol s => s
  | NumCol s => (λ _, None) <$> s
  | TimeCol s => (λ _, None) <$> s
  end.

(** ** GPU specifications ([metrics.py], [GPU_SPECS]) *)

Definition GPU_SPECS : gmap string (gmap string Q) :=
  {[ "NVIDIA A10G" := {[ "max_power" := 300; "achievable_tflops" := 35 ]};
     "NVIDIA A100-SXM4-40GB" := {[ "max_power" := 400; "achievable_tflops" := 102 ]};
     "NVIDIA H100 80GB HBM3" := {[ "max_power" := 700; "achievable_tflops" := 646 ]} ]}.

(** [d.get(k, dflt)] *)
Definition dict_get {V : Type} (d : gmap string V) (k : string) (dflt : V) : V :=
  default dflt (d !! k).

(** [specs.get(x, {}).get(field, dflt)], [x] being a value of the model
    column. *)
Definition spec_field (specs : gmap string (gmap string Q))
    (field : string) (dflt : Q) (x : option string) : Q :=
  dict_get (match x with
            | Some model => dict_get specs model ∅
            | None => ∅
            end) field dflt.

(** ** Efficiency calculator ([metrics.py])

    The functions read the global [GPU_SPECS]; they are stated over any
    table of specifications and then instantiated. *)

Section Calculator.
Variable specs : gmap string (gmap string Q).

Definition calculate_power_intensity_factor_with
    (df : DataFrame) (power_col model_col : string) : result Series :=
  models ← getcol df model_col;
  let max_power := (λ x, fin (spec_field specs "max_power" 400 x))
                     <$> column_keys models in
  power ← getnum df power_col;
  let pif := series_binop ndiv power max_power in
  mret (clip 0 1 pif).

Definition calculate_realized_tflops_with
    (df : DataFrame) (pif : Series) (model_col : string) : result Series :=
  models ← getcol df model_col;
  let achievable := (λ x, fin (spec_field specs "achievable_tflops" 100 x))
                      <$> column_keys models in
  mret (series_binop nmul achievable pif).

Definition calculate_rfu_with
    (df : DataFrame) (realized_tflops : Series) (model_col : string)
  : result Series :=
  models ← getcol df model_col;
  let achievable := (λ x, fin (spec_field specs "achievable_tflops" 100 x))
                      <$> column_keys models in
  let rfu := series_scalar nmul (series_binop ndiv realized_tflops achievable)
               (fin 100) in
  mret (clip 0 100 rfu).
End Calculator.

Definition calculate_power_intensity_factor :=
  calculate_power_intensity_factor_with GPU_SPECS.
Definition calculate_realized_tflops := calculate_realized_tflops_with GPU_SPECS.
Definition calculate_rfu := calculate_rfu_with GPU_SPECS.

Definition calculate_efficiency_gap (gpu_util rfu : Series) : Series :=
  series_binop nsub gpu_util rfu.

Definition calculate_memory_pressure (used_mb free_mb : Series) : Series :=
  let total := series_binop nadd used_mb free_mb in
  fillna 0 (series_scalar nmul (series_binop ndiv used_mb total) (fin 100)).

(** The specification that section 4.1 names for a model that is not in
    the table. *)
Definition default_spec : gmap string Q :=
  {[ "max_power" := 400; "achievable_tflops" := 100 ]}.

(** ** Tables as objects

    A [DataFrame] argument is a reference to an object that column
    assignment changes in place.  The store maps references to tables;
    a computation reads and changes the store and may raise, the changes
    made before the exception remaining. *)

Abbreviation loc := positive.

Definition M (A : Type) : Type := gmap loc DataFrame → result A * gmap loc DataFrame.

#[global] Instance M_ret : MRet M := λ A a h, (Ok a, h).
#[global] Instance M_bind : MBind M := λ A B k m h,
  match m h with
  | (Ok a, h') => k a h'
  | (Raise e, h') => (Raise e, h')
  end.

Definition lift {A : Type} (r : result A) : M A := λ h, (r, h).

(** The outcome of following a reference that the store does not hold;
    no Python program can do it. *)
Definition dangling {A : Type} : result A := Raise (KeyError "<no such object>").

Definition deref (df : loc) : M DataFrame := λ h,
  match h !! df with
  | Some t => (Ok t, h)
  | None => (dangling, h)
  end.

(** [df.copy()] *)
Definition copy (df : loc) : M loc := λ h,
  match h !! df with
  | Some t => let df' := fresh (dom h) in (Ok df', <[df' := t]> h)
  | None => (dangling, h)
  end.

(** [df[c] = col] *)
Definition setcol (df : loc) (c : string) (col : Column) : M unit := λ h,
  match h !! df with
  | Some t => (Ok (), <[df := <[c := col]> t]> h)
  | None => (dangling, h)
  end.

(** [metrics.py], [add_efficiency_metrics] *)
Definition add_efficiency_metrics (df : loc) (inplace : bool) : M loc :=
  df ← (if negb inplace then copy df else mret df);
  t ← deref df;
  pif ← lift (calculate_power_intensity_factor t "power_usage_watts" "gpu_model");
  setcol df "power_intensity_factor" (NumCol pif);;
  t ← deref df;
  pif ← lift (getnum t "power_intensity_factor");
  realized ← lift (calculate_realized_tflops t pif "gpu_model");
  setcol df "realized_tflops" (NumCol realized);;
  t ← deref df;
  realized ← lift (getnum t "realized_tflops");
  rfu ← lift (calculate_rfu t realized "gpu_model");
  setcol df "rfu_pct" (NumCol rfu);;
  t ← deref df;
  util ← lift (getnum t "gpu_utilization_pct");
  rfu ← lift (getnum t "rfu_pct");
  setcol df "efficiency_gap" (NumCol (calculate_efficiency_gap util rfu));;
  t ← deref df;
  used ← lift (getnum t "memory_used_mb");
  free ← lift (getnum t "memory_free_mb");
  setcol df "memory_pressure_pct" (NumCol (calculate_memory_pressure used free));;
  t ← deref df;
  util ← lift (getnum t "gpu_utilization_pct");
  pif ← lift (getnum t "power_intensity_factor");
  labels ← lift (classify_efficiency util pif);
  setcol df "efficiency_class" (StrCol (Some <$> labels));;
  mret df.

(** The six columns that [add_efficiency_metrics] assigns. *)
Definition derived_columns : list string :=
  [ "power_intensity_factor"; "realized_tflops"; "rfu_pct";
    "efficiency_gap"; "memory_pressure_pct"; "efficiency_class" ].

(** A table of GPU telemetry with [n] rows: the columns that
    [add_efficiency_metrics] reads are there with the type the
    computation needs, and all columns have [n] values. *)
Definition dcgm_table (n : nat) (t : DataFrame) : Prop :=
  (∃ power, t !! "power_usage_watts" = Some (NumCol power))
  ∧ is_Some (t !! "gpu_model")
  ∧ (∃ util, t !! "gpu_utilization_pct" = Some (NumCol util))
  ∧ (∃ used, t !! "memory_used_mb" = Some (NumCol used))
  ∧ (∃ free, t !! "memory_free_mb" = Some (NumCol free))
  ∧ (∀ c col, t !! c = Some col → column_length col = n).

(** ** Validators ([generators/validators.py]) *)

(** [(s < c).any()] and [(s > c).any()] *)
Definition any_lt (s : Series) (c : Q) : bool := existsb (λ x, (x <? fin c)%num) s.
Definition any_gt (s : Series) (c : Q) : bool := existsb (λ x, (x >? fin c)%num) s.

(** [(a > b).any()], the two series being columns of one table *)
Definition any_exceeds (a b : Series) : bool := existsb id (zip_with ngt a b).

(** [col.isna().any()] *)
Definition any_isna (col : Column) : bool :=
  match col with
  | NumCol s => existsb (λ x, bool_decide (x = None)) s
  | StrCol s => existsb (λ x, bool_decide (x = None)) s
  | TimeCol s => existsb (λ x, bool_decide (x = None)) s
  end.

(** [pd.api.types.is_datetime64_any_dtype(col)] *)
Definition is_datetime64_any_dtype (col : Column) : bool :=
  match col with
  | TimeCol _ => true
  | _ => false
  end.

(** [if cond: raise ValidationError(msg)] *)
Definition raise_if (cond : bool) (msg : string) : result unit :=
  if cond then Raise (ValidationError msg) else Ok ().

Definition _check_required_columns
    (df : DataFrame) (required : list string) (dataset_name : string) : result unit :=
  let missing := List.filter (λ c, bool_decide (df !! c = None)) required in
  raise_if (negb (bool_decide (missing = [])))
    (dataset_name ++ ": Missing required columns").

(** [for col in cols: if (df[col] < 0).any(): raise ...] *)
Fixpoint check_no_negative (df : DataFrame) (dataset_name : string)
    (cols : list string) : result unit :=
  match cols with
  | [] => Ok ()
  | col :: rest =>
      s ← getnum df col;
      raise_if (any_lt s 0) (dataset_name ++ ": " ++ col ++ " contains negative values");;
      check_no_negative df dataset_name rest
  end.

Section Validators.
(** [pd.to_datetime], the parser of the pandas library: the timestamps
    that it reads in a column, or the exception that it raises. *)
Variable to_datetime : Column → result (list (option Z)).

Definition _check_timestamps (df : DataFrame) (dataset_name : string) : result unit :=
  timestamp ← getcol df "timestamp";
  raise_if (any_isna timestamp) (dataset_name ++ ": timestamp contains null values");;
  if negb (is_datetime64_any_dtype timestamp) then
    match to_datetime timestamp with
    | Ok _ => Ok ()
    | Raise _ =>
        Raise (ValidationError
                 (dataset_name ++ ": timestamp contains invalid datetime values"))
    end
  else Ok ().

Definition validate_nodepool_data (df : DataFrame) : result unit :=
  let required_cols :=
    [ "timestamp"; "timestamp_hour"; "nodegroup"; "cluster"; "region";
      "gpu_model"; "capacity_gpu_count"; "allocatable_gpu_count" ] in
  _check_required_columns df required_cols "nodepool_state";;
  capacity ← getnum df "capacity_gpu_count";
  raise_if (any_lt capacity 0)
    "nodepool_state: capacity_gpu_count contains negative values";;
  allocatable ← getnum df "allocatable_gpu_count";
  raise_if (any_lt allocatable 0)
    "nodepool_state: allocatable_gpu_count contains negative values";;
  allocatable ← getnum df "allocatable_gpu_count";
  capacity ← getnum df "capacity_gpu_count";
  raise_if (any_exceeds allocatable capacity)
    "nodepool_state: allocatable_gpu_count exceeds capacity_gpu_count";;
  _check_timestamps df "nodepool_state".

Definition validate_kueue_data (df : DataFrame) : result unit :=
  let required_cols :=
    [ "timestamp"; "timestamp_hour"; "cluster"; "region"; "namespace";
      "queue_name"; "nodegroup"; "pending_workloads";
      "admission_wait_time_seconds"; "admitted_active_workloads";
      "resource_usage" ] in
  _check_required_columns df required_cols "kueue_metrics";;
  check_no_negative df "kueue_metrics"
    [ "pending_workloads"; "admitted_active_workloads"; "resource_usage" ];;
  wait ← getnum df "admission_wait_time_seconds";
  raise_if (any_lt wait 0)
    "kueue_metrics: admission_wait_time_seconds contains negative values";;
  _check_timestamps df "kueue_metrics".

Definition validate_dcgm_data (df : DataFrame) : result unit :=
  let required_cols :=
    [ "timestamp"; "timestamp_hour"; "hostname"; "cluster"; "region";
      "nodegroup"; "gpu_model"; "gpu_uuid"; "gpu_utilization_pct";
      "power_usage_watts"; "memory_used_mb"; "memory_free_mb";
      "gpu_temp_celsius" ] in
  _check_required_columns df required_cols "dcgm_metrics";;
  util ← getnum df "gpu_utilization_pct";
  raise_if (any_lt util 0 || any_gt util 100)
    "dcgm_metrics: gpu_utilization_pct out of range [0, 100]";;
  (if bool_decide (is_Some (df !! "tensor_active_pct")) then
     tensor ← getnum df "tensor_active_pct";
     raise_if (any_lt tensor 0 || any_gt tensor 100)
       "dcgm_metrics: tensor_active_pct out of range [0, 100]"
   else Ok ());;
  power ← getnum df "power_usage_watts";
  raise_if (any_lt power 0) "dcgm_metrics: power_usage_watts contains negative values";;
  used ← getnum df "memory_used_mb";
  raise_if (any_lt used 0) "dcgm_metrics: memory_used_mb contains negative values";;
  free ← getnum df "memory_free_mb";
  raise_if (any_lt free 0) "dcgm_metrics: memory_free_mb contains negative values";;
  temp ← getnum df "gpu_temp_celsius";
  raise_if (any_lt temp 0 || any_gt temp 120)
    "dcgm_metrics: gpu_temp_celsius out of range [0, 120]";;
  _check_timestamps df "dcgm_metrics".

(** [print] is not modelled. *)
Definition validate_all (nodepool_df kueue_df dcgm_df : DataFrame) : result unit :=
  validate_nodepool_data nodepool_df;;
  validate_kueue_data kueue_df;;
  validate_dcgm_data dcgm_df.
End Validators.

(** ** The end of data generation ([generators/synthetic_generator.py])

    [generate_synthetic_data] draws the three tables from one random
    generator, validates them, writes them and returns them.  The drawing
    is a parameter here; so are the reading of the scenario and the
    content of the manifest.  Failures of the file system are not
    modelled. *)

Section Generator.
Variable to_datetime : Column → result (list (option Z)).
Context {Config Manifest : Type}.
(** [scenarios.py], [get_scenario_config]: raises [ValueError] on an
    unknown name. *)
Variable get_scenario_config : string → result Config.
(** [generate_nodepool_state], [generate_kueue_metrics] and
    [generate_dcgm_metrics], in this order on one [rng]: the tables
    (nodepool, kueue, dcgm). *)
Variable generate_tables : Config → Z → Z → Z → DataFrame * DataFrame * DataFrame.
Variable make_manifest : string → Z → Z → Z → DataFrame * DataFrame * DataFrame → Manifest.

Inductive file : Type :=
  | Csv (table : DataFrame)
  | Json (manifest : Manifest).

Definition generate_synthetic_data
    (scenario : string) (seed days samples_per_hour : Z) (output_dir : string)
    (fs : gmap string file)
  : result (DataFrame * DataFrame * DataFrame * Manifest) * gmap string file :=
  match get_scenario_config scenario with
  | Raise e => (Raise e, fs)
  | Ok scenario_config =>
      let '(nodepool_df, kueue_df, dcgm_df) :=
        generate_tables scenario_config seed days samples_per_hour in
      match validate_nodepool_data to_datetime nodepool_df;;
            validate_kueue_data to_datetime kueue_df;;
            validate_dcgm_data to_datetime dcgm_df with
      | Raise e => (Raise e, fs)
      | Ok _ =>
          let fs := <[output_dir ++ "/nodepool_state.csv" := Csv nodepool_df]> fs in
          let fs := <[output_dir ++ "/kueue_metrics.csv" := Csv kueue_df]> fs in
          let fs := <[output_dir ++ "/dcgm_metrics.csv" := Csv dcgm_df]> fs in
          let manifest :=
            make_manifest scenario seed days samples_per_hour
              (nodepool_df, kueue_df, dcgm_df) in
          let fs := <[output_dir ++ "/manifest.json" := Json manifest]> fs in
          (Ok (kueue_df, dcgm_df, nodepool_df, manifest), fs)
      end
  end.
End Generator.

(** ** Grouping, aggregation and joining (pandas)

    A row is known by its position.  The key of a row is the tuple of
    its values in the key columns.  pandas orders the groups and the rows
    of an outer join by key; here groups come in the order of their first
    row, and the rows of a join in the order of the left table followed
    by the rows that only the right table has.  No statement below
    depends on the order of rows. *)

Inductive keyval : Type :=
  | KNum (q : Q)
  | KStr (s : string)
  | KTime (t : Z).

#[global] Instance Q_eq_dec : EqDecision Q.
Proof. solve_decision. Defined.
#[global] Instance keyval_eq_dec : EqDecision keyval.
Proof. solve_decision. Defined.

(** The values of a column as key components; a number in lowest terms,
    so that equal numbers are equal components. *)
Definition column_keyvals (col : Column) : list (option keyval) :=
  match col with
  | NumCol s => option_map (λ q, KNum (Qred q)) <$> s
  | StrCol s => option_map KStr <$> s
  | TimeCol s => option_map KTime <$> s
  end.

(** The keys of the rows [0 .. n-1] of a table, given its key columns. *)
Definition row_keys (cols : list Column) (n : nat) : list (list (option keyval)) :=
  (λ i, (λ col, mjoin (column_keyvals col !! i)) <$> cols) <$> seq 0 n.

Definition number_of_rows (cols : list Column) : nat :=
  match cols with
  | [] => 0
  | col :: _ => column_length col
  end.

(** The positions at which a list holds [k]. *)
Definition positions {A : Type} `{EqDecision A} (k : A) (l : list A) : list nat :=
  List.filter (λ i, bool_decide (l !! i = Some k)) (seq 0 (length l)).

(** The value of a series at an optional position, NaN beyond it. *)
Definition at_position {A : Type} (s : list (option A)) (oi : option nat) : option A :=
  i ← oi; mjoin (s !! i).

(** The rows of a column at the given positions; a missing position
    gives a missing value. *)
Definition take_rows (col : Column) (idx : list (option nat)) : Column :=
  match col with
  | NumCol s => NumCol (at_position s <$> idx)
  | StrCol s => StrCol (at_position s <$> idx)
  | TimeCol s => TimeCol (at_position s <$> idx)
  end.

Fixpoint Qsum (l : list Q) : Q :=
  match l with
  | [] => 0
  | x :: l' => x + Qsum l'
  end.

(** The reductions named in an aggregation: each skips NaN; the sum of
    no value is 0, the others are NaN on no value.  They are modelled on
    numeric columns. *)
Definition agg_function (name : string) : result (Series → num) :=
  if decide (name = "sum") then Ok (λ s, fin (Qsum (present s)))
  else if decide (name = "mean") then
    Ok (λ s, match present s with
             | [] => NaN
             | l => fin (Qsum l / inject_Z (Z.of_nat (length l)))
             end)
  else if decide (name = "max") then Ok series_max
  else if decide (name = "min") then Ok series_min
  else if decide (name = "first") then Ok (λ s, head (present s))
  else Raise (AttributeError name).

(** [df.groupby(by).agg(agg_config).reset_index()]: rows with a missing
    key component belong to no group. *)
Definition groupby_agg (df : DataFrame) (by_cols : list string)
    (agg_config : list (string * string)) : result DataFrame :=
  key_cols ← mapM (getcol df) by_cols;
  let keys := row_keys key_cols (number_of_rows key_cols) in
  let group_keys :=
    remove_dups (List.filter (λ k, forallb (λ c, bool_decide (is_Some c)) k) keys) in
  let groups := (λ k, positions k keys) <$> group_keys in
  out_cols ← mapM (λ '(c, f),
                s ← getnum df c;
                reduce ← agg_function f;
                mret (c, NumCol ((λ g, reduce (at_position s <$> (Some <$> g)))
                                   <$> groups))) agg_config;
  let first_rows := head <$> groups in
  let out_keys := zip_with (λ c col, (c, take_rows col first_rows)) by_cols key_cols in
  mret (list_to_map (out_keys ++ out_cols)).

(** The pairs (row of the left table, row of the right table) of a full
    outer join on the keys of the rows. *)
Definition join_pairs {A : Type} `{EqDecision A} (lkeys rkeys : list A)
  : list (option nat * option nat) :=
  (i ← seq 0 (length lkeys);
   match lkeys !! i with
   | Some k =>
       match positions k rkeys with
       | [] => [(Some i, None)]
       | js => (λ j, (Some i, Some j)) <$> js
       end
   | None => []
   end)
  ++ (j ← seq 0 (length rkeys);
      match rkeys !! j with
      | Some k => if bool_decide (k ∈ lkeys) then [] else [(None, Some j)]
      | None => []
      end).

(** The key column of the joined table: the value of the left row, or of
    the right row when there is no left row.  pandas refuses to join a
    column of one type with a column of another. *)
Definition coalesce {A : Type} (l r : list (option A)) : list (option A) :=
  zip_with (λ x y, match x with Some _ => x | None => y end) l r.

Definition coalesce_columns (l r : Column) : result Column :=
  match l, r with
  | NumCol a, NumCol b => Ok (NumCol (coalesce a b))
  | StrCol a, StrCol b => Ok (StrCol (coalesce a b))
  | TimeCol a, TimeCol b => Ok (TimeCol (coalesce a b))
  | _, _ => Raise (ValueError "You are trying to merge on columns of different types")
  end.

(** [left.merge(right, on=on, how='outer', suffixes=suffixes)] *)
Definition merge_outer (left right : DataFrame) (on : list string)
    (suffixes : string * string) : result DataFrame :=
  lcols ← mapM (getcol left) on;
  rcols ← mapM (getcol right) on;
  let pairs := join_pairs (row_keys lcols (number_of_rows lcols))
                          (row_keys rcols (number_of_rows rcols)) in
  let lidx := fst <$> pairs in
  let ridx := snd <$> pairs in
  key_out ← mapM (λ '(c, (l, r)),
               col ← coalesce_columns (take_rows l lidx) (take_rows r ridx);
               mret (c, col)) (zip on (zip lcols rcols));
  let other (t : DataFrame) := List.filter (λ '(c, _), bool_decide (c ∉ on)) (map_to_list t) in
  let overlaps (t : DataFrame) (c : string) := bool_decide (is_Some (t !! c)) in
  let left_out :=
    (λ '(c, col), (if overlaps right c then c ++ suffixes.1 else c,
                   take_rows col lidx)) <$> other left in
  let right_out :=
    (λ '(c, col), (if overlaps left c then c ++ suffixes.2 else c,
                   take_rows col ridx)) <$> other right in
  mret (list_to_map (key_out ++ left_out ++ right_out)).

(** [df.fillna({c: v, ...})], on numeric columns. *)
Definition fillna_columns (df : DataFrame) (values : list (string * Q)) : DataFrame :=
  foldl (λ acc '(c, v),
           match acc !! c with
           | Some (NumCol s) => <[c := NumCol (fillna v s)]> acc
           | _ => acc
           end) df values.

(** ** Time aggregation and the unified model ([aggregations.py]) *)

(** [ts.dt.floor('H')], on seconds since the epoch *)
Definition floor_hour (t : Z) : Z := (3600 * (t / 3600))%Z.

Section Aggregations.
Variable to_datetime : Column → result (list (option Z)).

Definition aggregate_to_hourly (df : DataFrame) (time_col : string)
    (group_cols : list string) (agg_config : option (list (string * string)))
  : result DataFrame :=
  timestamps ← getcol df time_col;
  parsed ← match timestamps with
           | TimeCol ts => Ok ts
           | _ => to_datetime timestamps
           end;
  let df := <[time_col := TimeCol parsed]> df in
  let df := <["timestamp_hour" := TimeCol (option_map floor_hour <$> parsed)]> df in
  let group_by := "timestamp_hour" :: group_cols in
  let agg_config :=
    match agg_config with
    | Some config => config
    | None =>
        let numeric_cols :=
          omap (λ '(c, col), match col with NumCol _ => Some c | _ => None end)
            (map_to_list df) in
        let numeric_cols :=
          List.filter (λ c, bool_decide (c ∉ group_by)) numeric_cols in
        (λ c, (c, "mean")) <$> numeric_cols
    end in
  groupby_agg df group_by agg_config.

Definition build_unified_model (kueue_df dcgm_df nodepool_df : DataFrame)
    (time_col join_col : string) : result DataFrame :=
  let mean_if_present (c : string) :=
    if bool_decide (is_Some (dcgm_df !! c)) then "mean" else "first" in
  kueue_hourly ← aggregate_to_hourly kueue_df "timestamp" [join_col]
    (Some [ ("pending_workloads", "sum");
            ("admission_wait_time_seconds", "mean");
            ("admitted_active_workloads", "sum");
            ("resource_usage", "sum");
            ("evicted_workloads_total", "max") ]);
  dcgm_hourly ← aggregate_to_hourly dcgm_df "timestamp" [join_col]
    (Some [ ("gpu_utilization_pct", "mean");
            ("power_usage_watts", "mean");
            ("power_intensity_factor", mean_if_present "power_intensity_factor");
            ("rfu_pct", mean_if_present "rfu_pct");
            ("efficiency_gap", mean_if_present "efficiency_gap");
            ("memory_used_mb", "mean");
            ("gpu_temp_celsius", "mean");
            ("tensor_active_pct", mean_if_present "tensor_active_pct") ]);
  nodepool_hourly ← aggregate_to_hourly nodepool_df "timestamp" [join_col]
    (Some [ ("capacity_gpu_count", "mean");
            ("allocatable_gpu_count", "mean") ]);
  unified ← merge_outer kueue_hourly nodepool_hourly [time_col; join_col]
              ("_kueue", "_nodepool");
  unified ← merge_outer unified dcgm_hourly [time_col; join_col] ("", "_dcgm");
  mret (fillna_columns unified
          [ ("pending_workloads", 0);
            ("admission_wait_time_seconds", 0);
            ("admitted_active_workloads", 0);
            ("resource_usage", 0) ]).
End Aggregations.

(** ** All imbalance metrics ([imbalance.py]) *)

Definition calculate_all_imbalance_metrics
    (kueue_df dcgm_df nodepool_df : DataFrame) (time_col group_col : string)
  : result DataFrame :=
  kueue_agg ← groupby_agg kueue_df [time_col; group_col]
    [ ("pending_workloads", "sum");
      ("admission_wait_time_seconds", "mean");
      ("admitted_active_workloads", "sum");
      ("resource_usage", "sum") ];
  dcgm_agg ← groupby_agg dcgm_df [time_col; group_col]
    [ ("gpu_utilization_pct", "mean");
      ("power_intensity_factor", "mean");
      ("rfu_pct", "mean");
      ("efficiency_gap", "mean");
      ("memory_pressure_pct", "mean") ];
  nodepool_agg ← groupby_agg nodepool_df [time_col; group_col]
    [ ("capacity_gpu_count", "mean");
      ("allocatable_gpu_count", "mean") ];
  result ← merge_outer kueue_agg nodepool_agg [time_col; group_col] ("_x", "_y");
  result ← merge_outer result dcgm_agg [time_col; group_col] ("_x", "_y");
  allocatable ← getnum result "allocatable_gpu_count";
  usage ← getnum result "resource_usage";
  let result : DataFrame := <["available_capacity" :=
                    NumCol (clip_lower 0 (series_binop nsub allocatable usage))]>
                  result in
  pending ← getnum result "pending_workloads";
  available ← getnum result "available_capacity";
  let result : DataFrame := <["demand_capacity_ratio" :=
                    NumCol (calculate_demand_capacity_ratio pending available
                              default_epsilon)]> result in
  pending ← getnum result "pending_workloads";
  wait ← getnum result "admission_wait_time_seconds";
  qps ← calculate_queue_pressure_score pending wait
          default_pending_weight default_wait_weight;
  let result : DataFrame := <["queue_pressure_score" := NumCol qps]> result in
  dcr ← getnum result "demand_capacity_ratio";
  gap ← getnum result "efficiency_gap";
  qps ← getnum result "queue_pressure_score";
  cis ← calculate_composite_imbalance_score dcr gap qps
          default_dcr_weight default_gap_weight default_qps_weight;
  let result : DataFrame := <["composite_imbalance_score" := NumCol cis]> result in
  cis ← getnum result "composite_imbalance_score";
  dcr ← getnum result "demand_capacity_ratio";
  severity ← classify_imbalance_severity cis dcr;
  let result : DataFrame := <["imbalance_severity" := StrCol (Some <$> severity)]> result in
  mret result.

(** ** Vocabulary of the statements about normalization *)



(** All values of the series are the number [v]. *)
Definition all_equal_to (v : Q) (s : Series) : Prop :=
  Forall (λ e, num_eq e (fin v)) s.

(** A non-empty series all of whose values are the number [v]. *)
Definition constant_series (v : Q) (s : Series) : Prop :=
  s ≠ [] ∧ all_equal_to v s.

(** ** Vocabulary of the statements about the efficiency calculator *)

(** The telemetry of one GPU of a given model drawing a given power. *)
Definition one_gpu (model : string) (power : Q) : DataFrame :=
  {[ "power_usage_watts" := NumCol [fin power];
     "gpu_model" := StrCol [Some model] ]}.

(** ** Vocabulary of the statements about the store *)

(** The computation changes no object of the store but [l]. *)
Definition touches_only {A : Type} (l : loc) (m : M A) : Prop :=
  ∀ (h : gmap loc DataFrame) (l0 : loc), l0 ≠ l → (m h).2 !! l0 = h !! l0.

(** A table of telemetry with two samples, the second of a model that is
    not in [GPU_SPECS]. *)
Definition sample_dcgm : DataFrame :=
  <["power_usage_watts" := NumCol [fin 200; fin 350]]>
  (<["gpu_model" := StrCol [Some "NVIDIA A100-SXM4-40GB"; Some "NVIDIA L4"]]>
  (<["gpu_utilization_pct" := NumCol [fin 80; fin 5]]>
  (<["memory_used_mb" := NumCol [fin 10; fin 0]]>
  (<["memory_free_mb" := NumCol [fin 30; fin 0]]> ∅)))).

(** ** Vocabulary of the statements about validation *)

(** The validator ends with a [ValidationError]. *)
Definition raises_validation (r : result unit) : Prop :=
  ∃ msg, r = Raise (ValidationError msg).

(** The validator returns or ends with a [ValidationError]. *)
Definition valid_outcome (r : result unit) : Prop :=
  r = Ok () ∨ raises_validation r.

(** The columns named are numeric where the table has them. *)
Definition numeric_columns (df : DataFrame) (cols : list string) : Prop :=
  ∀ c col, c ∈ cols → df !! c = Some col → ∃ s, col = NumCol s.

Definition missing_column (df : DataFrame) (required : list string) : Prop :=
  ∃ c, c ∈ required ∧ df !! c = None.

Definition has_negative (df : DataFrame) (c : string) : Prop :=
  ∃ (s : Series) (i : nat) (x : Q),
    df !! c = Some (NumCol s) ∧ s !! i = Some (fin x) ∧ x < 0.

Definition out_of_range (df : DataFrame) (c : string) (lo hi : Q) : Prop :=
  ∃ (s : Series) (i : nat) (x : Q),
    df !! c = Some (NumCol s) ∧ s !! i = Some (fin x) ∧ (x < lo ∨ hi < x).

Definition allocatable_exceeds_capacity (df : DataFrame) : Prop :=
  ∃ (allocatable capacity : Series) (i : nat) (a c : Q),
    df !! "allocatable_gpu_count" = Some (NumCol allocatable)
    ∧ df !! "capacity_gpu_count" = Some (NumCol capacity)
    ∧ allocatable !! i = Some (fin a) ∧ capacity !! i = Some (fin c) ∧ c < a.

Definition column_has_null (col : Column) : Prop :=
  match col with
  | NumCol s => None ∈ s
  | StrCol s => None ∈ s
  | TimeCol s => None ∈ s
  end.

Definition null_timestamp (df : DataFrame) : Prop :=
  ∃ col, df !! "timestamp" = Some col ∧ column_has_null col.

Definition unparseable_timestamp
    (to_datetime : Column → result (list (option Z))) (df : DataFrame) : Prop :=
  ∃ col e, df !! "timestamp" = Some col
           ∧ is_datetime64_any_dtype col = false ∧ to_datetime col = Raise e.

Definition nodepool_required : list string :=
  [ "timestamp"; "timestamp_hour"; "nodegroup"; "cluster"; "region";
    "gpu_model"; "capacity_gpu_count"; "allocatable_gpu_count" ].

Definition kueue_required : list string :=
  [ "timestamp"; "timestamp_hour"; "cluster"; "region"; "namespace";
    "queue_name"; "nodegroup"; "pending_workloads";
    "admission_wait_time_seconds"; "admitted_active_workloads";
    "resource_usage" ].

Definition dcgm_required : list string :=
  [ "timestamp"; "timestamp_hour"; "hostname"; "cluster"; "region";
    "nodegroup"; "gpu_model"; "gpu_uuid"; "gpu_utilization_pct";
    "power_usage_watts"; "memory_used_mb"; "memory_free_mb";
    "gpu_temp_celsius" ].

(** What each validator checks. *)
Definition violates_nodepool
    (to_datetime : Column → result (list (option Z))) (df : DataFrame) : Prop :=
  missing_column df nodepool_required
  ∨ has_negative df "capacity_gpu_count"
  ∨ has_negative df "allocatable_gpu_count"
  ∨ allocatable_exceeds_capacity df
  ∨ null_timestamp df
  ∨ unparseable_timestamp to_datetime df.

Definition violates_kueue
    (to_datetime : Column → result (list (option Z))) (df : DataFrame) : Prop :=
  missing_column df kueue_required
  ∨ has_negative df "pending_workloads"
  ∨ has_negative df "admitted_active_workloads"
  ∨ has_negative df "resource_usage"
  ∨ has_negative df "admission_wait_time_seconds"
  ∨ null_timestamp df
  ∨ unparseable_timestamp to_datetime df.

Definition violates_dcgm
    (to_datetime : Column → result (list (option Z))) (df : DataFrame) : Prop :=
  missing_column df dcgm_required
  ∨ out_of_range df "gpu_utilization_pct" 0 100
  ∨ out_of_range df "tensor_active_pct" 0 100
  ∨ has_negative df "power_usage_watts"
  ∨ has_negative df "memory_used_mb"
  ∨ has_negative df "memory_free_mb"
  ∨ out_of_range df "gpu_temp_celsius" 0 120
  ∨ null_timestamp df
  ∨ unparseable_timestamp to_datetime df.

(** The list of section 7 of the specification, read on the table of GPU
    telemetry, which has no count, no wait time and no capacity: a
    missing required column, a utilization or a percentage outside
    [0, 100], a temperature outside [0, 120], a null timestamp, an
    unparseable timestamp. *)
Definition listed_violation_dcgm
    (to_datetime : Column → result (list (option Z))) (df : DataFrame) : Prop :=
  missing_column df dcgm_required
  ∨ out_of_range df "gpu_utilization_pct" 0 100
  ∨ out_of_range df "tensor_active_pct" 0 100
  ∨ out_of_range df "gpu_temp_celsius" 0 120
  ∨ null_timestamp df
  ∨ unparseable_timestamp to_datetime df.

(** One sample of telemetry, valid but for its power, which is negative. *)
Definition negative_power_dcgm : DataFrame :=
  <["timestamp" := TimeCol [Some 1768867200%Z]]>
  (<["timestamp_hour" := TimeCol [Some 1768867200%Z]]>
  (<["hostname" := StrCol [Some "host1"]]>
  (<["cluster" := StrCol [Some "cluster1"]]>
  (<["region" := StrCol [Some "us-west-2"]]>
  (<["nodegroup" := StrCol [Some "ng1"]]>
  (<["gpu_model" := StrCol [Some "NVIDIA A10G"]]>
  (<["gpu_uuid" := StrCol [Some "GPU-123"]]>
  (<["gpu_utilization_pct" := NumCol [fin 50]]>
  (<["power_usage_watts" := NumCol [fin (-1)]]>
  (<["memory_used_mb" := NumCol [fin 10000]]>
  (<["memory_free_mb" := NumCol [fin 30000]]>
  (<["gpu_temp_celsius" := NumCol [fin 50]]> ∅)))))))))))).

(** A parser that reads no column: every use of it raises. *)
Definition no_parser (col : Column) : result (list (option Z)) :=
  Raise (ValueError "unparseable").

(** One valid row of capacity and one valid row of demand. *)
Definition sample_nodepool : DataFrame :=
  <["timestamp" := TimeCol [Some 1768867200%Z]]>
  (<["timestamp_hour" := TimeCol [Some 1768867200%Z]]>
  (<["nodegroup" := StrCol [Some "ng1"]]>
  (<["cluster" := StrCol [Some "cluster1"]]>
  (<["region" := StrCol [Some "us-west-2"]]>
  (<["gpu_model" := StrCol [Some "NVIDIA A10G"]]>
  (<["capacity_gpu_count" := NumCol [fin 10]]>
  (<["allocatable_gpu_count" := NumCol [fin 9]]> ∅))))))).

Definition sample_kueue : DataFrame :=
  <["timestamp" := TimeCol [Some 1768867200%Z]]>
  (<["timestamp_hour" := TimeCol [Some 1768867200%Z]]>
  (<["cluster" := StrCol [Some "cluster1"]]>
  (<["region" := StrCol [Some "us-west-2"]]>
  (<["namespace" := StrCol [Some "research"]]>
  (<["queue_name" := StrCol [Some "research-a100-queue"]]>
  (<["nodegroup" := StrCol [Some "ng1"]]>
  (<["pending_workloads" := NumCol [fin 4]]>
  (<["admission_wait_time_seconds" := NumCol [fin 60]]>
  (<["admitted_active_workloads" := NumCol [fin 6]]>
  (<["resource_usage" := NumCol [fin 6]]> ∅)))))))))).

(** ** Vocabulary of the further statements *)

(** The order of the severity labels, from Healthy up to Critical. *)
Definition severity_rank (label : string) : nat :=
  if decide (label = "Critical") then 3
  else if decide (label = "Warning") then 2
  else if decide (label = "Moderate") then 1
  else 0.

(** The value of a series at a position, NaN beyond its end. *)
Definition value_at (s : Series) (i : nat) : num := mjoin (s !! i).

(** A table with the six columns of [add_efficiency_metrics] assigned, in
    the order of the assignments. *)
Definition with_derived_columns (t : DataFrame)
    (pif realized rfu gap pressure : Series) (labels : list string) : DataFrame :=
  <["efficiency_class" := StrCol (Some <$> labels)]>
  (<["memory_pressure_pct" := NumCol pressure]>
  (<["efficiency_gap" := NumCol gap]>
  (<["rfu_pct" := NumCol rfu]>
  (<["realized_tflops" := NumCol realized]>
  (<["power_intensity_factor" := NumCol pif]> t))))).

(** ** Vocabulary of the statements about the join *)

(** One hour of data on two node groups: group a has demand, capacity and
    telemetry; group b has capacity alone. *)
Definition demand_in_a : DataFrame :=
  <["timestamp" := TimeCol [Some 3900%Z]]>
  (<["timestamp_hour" := TimeCol [Some 3600%Z]]>
  (<["nodegroup" := StrCol [Some "a"]]>
  (<["pending_workloads" := NumCol [fin 3]]>
  (<["admission_wait_time_seconds" := NumCol [fin 10]]>
  (<["admitted_active_workloads" := NumCol [fin 1]]>
  (<["resource_usage" := NumCol [fin 2]]>
  (<["evicted_workloads_total" := NumCol [fin 0]]> ∅))))))).

Definition capacity_in_a_and_b : DataFrame :=
  <["timestamp" := TimeCol [Some 3900%Z; Some 3900%Z]]>
  (<["timestamp_hour" := TimeCol [Some 3600%Z; Some 3600%Z]]>
  (<["nodegroup" := StrCol [Some "a"; Some "b"]]>
  (<["capacity_gpu_count" := NumCol [fin 8; fin 8]]>
  (<["allocatable_gpu_count" := NumCol [fin 8; fin 8]]> ∅)))).

Definition telemetry_in_a : DataFrame :=
  <["timestamp" := TimeCol [Some 3900%Z]]>
  (<["timestamp_hour" := TimeCol [Some 3600%Z]]>
  (<["nodegroup" := StrCol [Some "a"]]>
  (<["gpu_utilization_pct" := NumCol [fin 80]]>
  (<["power_usage_watts" := NumCol [fin 200]]>
  (<["memory_used_mb" := NumCol [fin 10]]>
  (<["gpu_temp_celsius" := NumCol [fin 60]]>
  (<["tensor_active_pct" := NumCol [fin 40]]>
  (<["power_intensity_factor" := NumCol [fin 0.5]]>
  (<["rfu_pct" := NumCol [fin 50]]>
  (<["efficiency_gap" := NumCol [fin 30]]>
  (<["memory_pressure_pct" := NumCol [fin 25]]> ∅))))))))))).

(** The four demand columns that [build_unified_model] fills. *)
Definition demand_columns : list string :=
  [ "pending_workloads"; "admission_wait_time_seconds";
    "admitted_active_workloads"; "resource_usage" ].
(** * Properties *)

Lemma Qltb_lt (x y : Q) : Qltb x y = true ↔ x < y.
Proof.
  unfold Qltb. rewrite negb_true_iff, <- not_true_iff_false, Qle_bool_iff.
  split; [apply Qnot_le_lt | apply Qlt_not_le].
Qed.

(** ** Classifiers *)

(** [classify_row] is the first-match reading of its own rule list on every
    pair of values (NaN included), its label is one of the five classes,
    and [classify_efficiency] applies it position by position.  The
    boundary input, utilization 70 with PIF 0.60, is Moderate and not
    Bottlenecked. *)
Lemma classify_efficiency_first_match :
  (∀ util pif_val : num,
     classify_row util pif_val
     = first_match efficiency_table "Inefficient" util pif_val)
  ∧ (∀ util pif_val : num,
       classify_row util pif_val
       ∈ ["Idle"; "Efficient"; "Bottlenecked"; "Moderate"; "Inefficient"])
  ∧ (∀ gpu_util pif : Series,
       classify_efficiency gpu_util pif
       = if decide (length gpu_util ≤ length pif)%nat
         then Ok (zip_with (first_match efficiency_table "Inefficient") gpu_util pif)
         else Raise (ValueError "Length of values does not match length of index"))
  ∧ classify_efficiency [fin 70] [fin 0.60] = Ok ["Moderate"]
  ∧ classify_efficiency [fin 70] [fin 0.60] ≠ Ok ["Bottlenecked"].
Proof.
  split_and!; [done | | | by vm_compute..].
  - intros util pif_val. unfold classify_row.
    repeat case_match; set_solver.
  - intros gpu_util pif. unfold classify_efficiency.
    assert (Hlen : length (zip_with classify_row gpu_util pif)
                   = length gpu_util `min` length pif) by apply length_zip_with.
    repeat case_decide; try done; lia.
Qed.

(** C1, at the input it singles out.  For utilization 75 with PIF 0.65
    the claim, the example of section 4.1 and the docstring of
    [classify_efficiency] (Moderate is utilization 40 to 70, Inefficient
    is everything above 10 that is in no other class) all give
    Inefficient.  The code returns Moderate: its fourth branch,
    utilization >= 40 and PIF >= 0.50, has no upper bound on the
    utilization and matches before the default. *)
Theorem classify_efficiency_75_065_not_inefficient :
  classify_efficiency [fin 75] [fin 0.65] = Ok ["Moderate"]
  ∧ classify_efficiency [fin 75] [fin 0.65] ≠ Ok ["Inefficient"]
  ∧ classify_row (fin 75) (fin 0.65) = "Moderate".
Proof. split_and!; by vm_compute. Qed.

(** C4.  [classify] is the first-match reading of the rule list of section
    4.5 on every pair of values; it reads nothing but its two arguments;
    [classify_imbalance_severity] applies it position by position; and the
    three inputs named by the specification get the labels it names. *)
Theorem classify_imbalance_severity_rule_list :
  (∀ cis_val dcr_val : num,
     classify cis_val dcr_val
     = first_match severity_table "Healthy" cis_val dcr_val)
  ∧ (∀ cis_val dcr_val : num,
       classify cis_val dcr_val ∈ ["Critical"; "Warning"; "Moderate"; "Healthy"])
  ∧ (∀ cis dcr : Series,
       classify_imbalance_severity cis dcr
       = if decide (length cis ≤ length dcr)%nat
         then Ok (zip_with (first_match severity_table "Healthy") cis dcr)
         else Raise (ValueError "Length of values does not match length of index"))
  ∧ classify_imbalance_severity [fin 0.8] [fin 0.5] = Ok ["Critical"]
  ∧ classify_imbalance_severity [fin 0.3] [fin 2.5] = Ok ["Critical"]
  ∧ classify_imbalance_severity [fin 0.2] [fin 0.3] = Ok ["Healthy"].
Proof.
  split_and!; [done | | | by vm_compute..].
  - intros cis_val dcr_val. unfold classify.
    repeat case_match; set_solver.
  - intros cis dcr. unfold classify_imbalance_severity.
    assert (Hlen : length (zip_with classify cis dcr)
                   = length cis `min` length dcr) by apply length_zip_with.
    repeat case_decide; try done; lia.
Qed.

(** ** Series operations *)

Lemma length_series_binop f (a b : Series) :
  length (series_binop f a b) = (length a `max` length b)%nat.
Proof.
  revert b. induction a as [|x a IH]; intros [|y b]; simpl;
    rewrite ?length_fmap; auto.
Qed.

Lemma series_binop_lookup f (a b : Series) (i : nat) (x y : num) :
  a !! i = Some x → b !! i = Some y → series_binop f a b !! i = Some (f x y).
Proof.
  revert b i. induction a as [|x' a IH]; intros [|y' b] [|i]; simpl; try done.
  - by intros [= ->] [= ->].
  - apply IH.
Qed.

Lemma lookup_all_NaN {A} (l : list A) (i : nat) (q : Q) :
  ((λ _, NaN) <$> l) !! i ≠ Some (fin q).
Proof. rewrite list_lookup_fmap. by destruct (l !! i). Qed.


Lemma series_binop_ndiv_inv (a b : Series) (i : nat) (q : Q) :
  series_binop ndiv a b !! i = Some (fin q) →
  ∃ x y, a !! i = Some (fin x) ∧ b !! i = Some (fin y)
         ∧ Qeq_bool y 0 = false ∧ q = x / y.
Proof.
  revert b i. induction a as [|x' a IH]; intros b i.
  - intros H. by apply (lookup_all_NaN b i q) in H.
  - destruct b as [|y' b].
    + intros H. by apply (lookup_all_NaN (x' :: a) i q) in H.
    + destruct i as [|i]; simpl; [| apply IH].
      destruct x' as [x'|], y' as [y'|]; simpl; try done.
      destruct (Qeq_bool y' 0) eqn:Hy; [done |].
      intros [= <-]. by exists x', y'.
Qed.


Lemma Qeq_bool_false (x y : Q) : Qeq_bool x y = false ↔ ¬ x == y.
Proof. by rewrite <- not_true_iff_false, Qeq_bool_iff. Qed.

(** ** Demand-capacity ratio *)

Lemma dcr_lookup (pending available : Series) (epsilon : Q) (i : nat) (p c : Q) :
  0 < epsilon → 0 <= c →
  pending !! i = Some (fin p) → available !! i = Some (fin c) →
  calculate_demand_capacity_ratio pending available epsilon !! i
  = Some (fin (p / (c + epsilon))).
Proof.
  intros Heps Hc Hp Ha. unfold calculate_demand_capacity_ratio.
  erewrite series_binop_lookup; [| done |].
  2:{ unfold series_scalar. rewrite list_lookup_fmap, Ha. reflexivity. }
  simpl. destruct (Qeq_bool (c + epsilon) 0) eqn:Hz; [| done].
  apply Qeq_bool_iff in Hz. lra.
Qed.

Lemma Qdiv_le_mono_num (a b d : Q) : 0 < d → a <= b → a / d <= b / d.
Proof.
  intros Hd Hab. apply Qle_shift_div_l; [done |].
  assert (Heq : a / d * d == a) by (field; lra). lra.
Qed.

Lemma Qdiv_lt_mono_num (a b d : Q) : 0 < d → a < b → a / d < b / d.
Proof.
  intros Hd Hab. apply Qlt_shift_div_l; [done |].
  assert (Heq : a / d * d == a) by (field; lra). lra.
Qed.

Lemma Qdiv_le_anti_den (a d d' : Q) : 0 <= a → 0 < d → d <= d' → a / d' <= a / d.
Proof.
  intros Ha Hd Hdd.
  assert (Ht : a / d' * d' == a) by (field; lra).
  assert (Ht0 : 0 <= a / d') by (apply Qle_shift_div_l; lra).
  apply Qle_shift_div_l; [done |]. nra.
Qed.

Lemma Qdiv_lt_anti_den (a d d' : Q) : 0 < a → 0 < d → d < d' → a / d' < a / d.
Proof.
  intros Ha Hd Hdd.
  assert (Ht : a / d' * d' == a) by (field; lra).
  assert (Ht0 : 0 < a / d') by (apply Qlt_shift_div_l; lra).
  apply Qlt_shift_div_l; [done |]. nra.
Qed.

(** C7.  With epsilon > 0 fixed and non-negative inputs, the ratio at a
    position does not decrease when the pending count at that position
    grows (and increases when the count increases), and does not increase
    when the available capacity grows (and decreases when the capacity
    increases under a positive pending count). *)
Theorem demand_capacity_ratio_monotone
    (epsilon : Q) (pending pending' available available' : Series)
    (i : nat) (p p' c c' : Q) :
  0 < epsilon →
  pending !! i = Some (fin p) → pending' !! i = Some (fin p') →
  available !! i = Some (fin c) → available' !! i = Some (fin c') →
  0 <= p → p <= p' → 0 <= c → c <= c' →
  ∃ d d_more_pending d_more_capacity : Q,
    calculate_demand_capacity_ratio pending available epsilon !! i = Some (fin d)
    ∧ calculate_demand_capacity_ratio pending' available epsilon !! i
      = Some (fin d_more_pending)
    ∧ calculate_demand_capacity_ratio pending available' epsilon !! i
      = Some (fin d_more_capacity)
    ∧ d == p / (c + epsilon)
    ∧ d <= d_more_pending
    ∧ d_more_capacity <= d
    ∧ (p < p' → d < d_more_pending)
    ∧ (c < c' → 0 < p → d_more_capacity < d).
Proof.
  intros Heps Hp Hp' Hc Hc' Hp0 Hpp Hc0 Hcc.
  exists (p / (c + epsilon)), (p' / (c + epsilon)), (p / (c' + epsilon)).
  split_and!.
  - by apply dcr_lookup.
  - by apply dcr_lookup.
  - apply dcr_lookup; [done | lra | done..].
  - reflexivity.
  - apply Qdiv_le_mono_num; lra.
  - apply Qdiv_le_anti_den; lra.
  - intros Hlt. apply Qdiv_lt_mono_num; lra.
  - intros Hlt Hpos. apply Qdiv_lt_anti_den; lra.
Qed.

Lemma demand_capacity_ratio_monotone_witness :
  ∃ d d_more_pending d_more_capacity : Q,
    calculate_demand_capacity_ratio [fin 10] [fin 10] default_epsilon !! 0%nat
    = Some (fin d)
    ∧ calculate_demand_capacity_ratio [fin 20] [fin 10] default_epsilon !! 0%nat
      = Some (fin d_more_pending)
    ∧ calculate_demand_capacity_ratio [fin 10] [fin 40] default_epsilon !! 0%nat
      = Some (fin d_more_capacity)
    ∧ d == 10 / (10 + default_epsilon)
    ∧ d <= d_more_pending
    ∧ d_more_capacity <= d
    ∧ (10 < 20 → d < d_more_pending)
    ∧ (10 < 40 → 0 < 10 → d_more_capacity < d).
Proof.
  apply (demand_capacity_ratio_monotone default_epsilon
           [fin 10] [fin 20] [fin 10] [fin 40] 0 10 20 10 40);
    first [reflexivity | by vm_compute].
Defined.

(** ** Minimum and maximum of a series *)

Lemma Qmin_cases (x y : Q) : Qmin x y = x ∨ Qmin x y = y.
Proof.
  unfold Qmin, GenericMinMax.gmin. destruct (Qcompare x y); auto.
Qed.

Lemma Qmax_cases (x y : Q) : Qmax x y = x ∨ Qmax x y = y.
Proof.
  unfold Qmax, GenericMinMax.gmax. destruct (Qcompare x y); auto.
Qed.

Lemma Qlist_min_le_init (x : Q) (l : list Q) : Qlist_min x l <= x.
Proof.
  revert x. induction l as [|y l IH]; intros x; simpl; [lra |].
  specialize (IH (Qmin x y)). pose proof (Q.le_min_l x y). lra.
Qed.

Lemma Qlist_min_le (x : Q) (l : list Q) (y : Q) : y ∈ x :: l → Qlist_min x l <= y.
Proof.
  revert x. induction l as [|z l IH]; intros x; simpl.
  - intros ->%list_elem_of_singleton. lra.
  - intros Hy.
    assert (Hcase : y = x ∨ y = z ∨ y ∈ l) by (rewrite !elem_of_cons in Hy; tauto).
    pose proof (Qlist_min_le_init (Qmin x z) l) as Hinit.
    pose proof (Q.le_min_l x z). pose proof (Q.le_min_r x z).
    destruct Hcase as [-> | [-> | Hl]]; [lra | lra |].
    apply IH. by right.
Qed.

Lemma Qlist_min_elem (x : Q) (l : list Q) : Qlist_min x l ∈ x :: l.
Proof.
  revert x. induction l as [|z l IH]; intros x; simpl; [by left |].
  specialize (IH (Qmin x z)).
  destruct (Qmin_cases x z) as [Heq | Heq]; rewrite Heq in IH |- *;
    apply elem_of_cons in IH as [IH | IH]; rewrite ?elem_of_cons; auto.
Qed.

Lemma Qlist_max_ge_init (x : Q) (l : list Q) : x <= Qlist_max x l.
Proof.
  revert x. induction l as [|y l IH]; intros x; simpl; [lra |].
  specialize (IH (Qmax x y)). pose proof (Q.le_max_l x y). lra.
Qed.

Lemma Qlist_max_ge (x : Q) (l : list Q) (y : Q) : y ∈ x :: l → y <= Qlist_max x l.
Proof.
  revert x. induction l as [|z l IH]; intros x; simpl.
  - intros ->%list_elem_of_singleton. lra.
  - intros Hy.
    assert (Hcase : y = x ∨ y = z ∨ y ∈ l) by (rewrite !elem_of_cons in Hy; tauto).
    pose proof (Qlist_max_ge_init (Qmax x z) l) as Hinit.
    pose proof (Q.le_max_l x z). pose proof (Q.le_max_r x z).
    destruct Hcase as [-> | [-> | Hl]]; [lra | lra |].
    apply IH. by right.
Qed.

Lemma Qlist_max_elem (x : Q) (l : list Q) : Qlist_max x l ∈ x :: l.
Proof.
  revert x. induction l as [|z l IH]; intros x; simpl; [by left |].
  specialize (IH (Qmax x z)).
  destruct (Qmax_cases x z) as [Heq | Heq]; rewrite Heq in IH |- *;
    apply elem_of_cons in IH as [IH | IH]; rewrite ?elem_of_cons; auto.
Qed.

Lemma elem_of_present (s : Series) (x : Q) :
  x ∈ present s ↔ ∃ i, s !! i = Some (fin x).
Proof.
  unfold present. rewrite list_elem_of_omap. split.
  - intros ([y|] & Hin & Hy); simplify_eq/=.
    by apply list_elem_of_lookup in Hin.
  - intros [i Hi]. exists (fin x). split; [| done].
    apply list_elem_of_lookup. eauto.
Qed.

Lemma series_min_spec (s : Series) (x : Q) :
  x ∈ present s →
  ∃ mn, series_min s = fin mn ∧ mn <= x ∧ mn ∈ present s.
Proof.
  unfold series_min. destruct (present s) as [|x0 l] eqn:Hp; [set_solver |].
  intros Hx. exists (Qlist_min x0 l). split_and!; [done | |].
  - by apply Qlist_min_le.
  - apply Qlist_min_elem.
Qed.

Lemma series_max_spec (s : Series) (x : Q) :
  x ∈ present s →
  ∃ mx, series_max s = fin mx ∧ x <= mx ∧ mx ∈ present s.
Proof.
  unfold series_max. destruct (present s) as [|x0 l] eqn:Hp; [set_solver |].
  intros Hx. exists (Qlist_max x0 l). split_and!; [done | |].
  - by apply Qlist_max_ge.
  - apply Qlist_max_elem.
Qed.

(** ** Min-max scaling of one value *)

Lemma minmax_scale_unit (x mn mx : Q) :
  mn <= x → x <= mx →
  let r := if Qeq_bool (mx - mn) 0 then 1 else mx - mn in
  Qeq_bool r 0 = false
  ∧ 0 <= (x - mn) / r ∧ (x - mn) / r <= 1
  ∧ ((x - mn) / r == 1 ↔ x == mx ∧ mn < mx).
Proof.
  intros Hlo Hhi. simpl.
  destruct (Qeq_bool (mx - mn) 0) eqn:Hz.
  - apply Qeq_bool_iff in Hz.
    assert (Hv : (x - mn) / 1 == 0) by (field_simplify; lra).
    split_and!; [done | lra | lra |].
    split; [intros H1 | intros [_ Hlt]]; lra.
  - pose proof Hz as Hz'. apply Qeq_bool_false in Hz'.
    assert (Hr : 0 < mx - mn) by lra.
    assert (Hv : (x - mn) / (mx - mn) * (mx - mn) == x - mn) by (field; lra).
    split_and!; [done | | |].
    + apply Qle_shift_div_l; lra.
    + apply Qle_shift_div_r; lra.
    + split.
      * intros H1. rewrite H1 in Hv. lra.
      * intros [Heq _].
        assert (Hx : x - mn == mx - mn) by lra.
        rewrite Hx. field. lra.
Qed.

Lemma normalize_series_minmax_global (s : Series) :
  normalize_series s "minmax" None
  = Ok (series_scalar ndiv (series_scalar nsub s (series_min s))
          (if is_zero (series_max s - series_min s)%num then fin 1
           else (series_max s - series_min s)%num)).
Proof. reflexivity. Qed.

(** One position of the globally scaled series: a value that is present
    is mapped into [0, 1], and to 1 exactly when it is the maximum of a
    series that is not constant. *)
Lemma normalize_series_lookup (s : Series) (i : nat) (x : Q) :
  s !! i = Some (fin x) →
  ∃ (norm : Series) (mn mx v : Q),
    normalize_series s "minmax" None = Ok norm
    ∧ series_min s = fin mn ∧ series_max s = fin mx
    ∧ norm !! i = Some (fin v)
    ∧ 0 <= v ∧ v <= 1
    ∧ (v == 1 ↔ x == mx ∧ mn < mx).
Proof.
  intros Hi.
  assert (Hx : x ∈ present s) by (apply elem_of_present; eauto).
  destruct (series_min_spec s x Hx) as (mn & Hmn & Hle & _).
  destruct (series_max_spec s x Hx) as (mx & Hmx & Hge & _).
  destruct (minmax_scale_unit x mn mx Hle Hge) as (Hr & H0 & H1 & Hiff).
  rewrite normalize_series_minmax_global, Hmn, Hmx.
  eexists _, mn, mx, _. split_and!; [done.. | | done | done | done].
  unfold series_scalar. rewrite !list_lookup_fmap, Hi. simpl.
  unfold is_zero. simpl.
  destruct (Qeq_bool (mx - mn) 0) eqn:Hz; simpl; [done | by rewrite Hz].
Qed.


(** ** Queue pressure score *)





(** ** Normalization of a constant series *)

Lemma num_eq_fin_inv (e : num) (v : Q) : num_eq e (fin v) → ∃ x, e = fin x ∧ x == v.
Proof. intros H. inversion H; subst. eauto. Qed.

Lemma all_equal_to_lookup (v : Q) (s : Series) (i : nat) :
  all_equal_to v s → (i < length s)%nat → ∃ x, s !! i = Some (fin x) ∧ x == v.
Proof.
  intros Hall Hi. destruct (lookup_lt_is_Some_2 s i Hi) as [e He].
  unfold all_equal_to in Hall. rewrite Forall_lookup in Hall.
  destruct (num_eq_fin_inv e v (Hall i e He)) as (x & -> & Hx). eauto.
Qed.

Lemma all_equal_to_present (v : Q) (s : Series) :
  all_equal_to v s →
  length (present s) = length s ∧ Forall (λ x, x == v) (present s).
Proof.
  unfold all_equal_to, present.
  induction 1 as [|e s He Hs [IHlen IHall]]; simpl; [by split |].
  destruct (num_eq_fin_inv e v He) as (x & -> & Hx). unfold fin. simpl.
  split; [f_equal; exact IHlen | constructor; [exact Hx | exact IHall]].
Qed.

Lemma series_min_constant (v : Q) (s : Series) :
  constant_series v s → ∃ mn, series_min s = fin mn ∧ mn == v.
Proof.
  intros [Hne Hall].
  destruct (all_equal_to_present v s Hall) as [Hlen Hp].
  unfold series_min. destruct (present s) as [|x0 l] eqn:Hpres.
  - destruct s; [done | simpl in Hlen; lia].
  - eexists. split; [done |].
    rewrite Forall_forall in Hp. apply Hp, Qlist_min_elem.
Qed.

Lemma series_max_constant (v : Q) (s : Series) :
  constant_series v s → ∃ mx, series_max s = fin mx ∧ mx == v.
Proof.
  intros [Hne Hall].
  destruct (all_equal_to_present v s Hall) as [Hlen Hp].
  unfold series_max. destruct (present s) as [|x0 l] eqn:Hpres.
  - destruct s; [done | simpl in Hlen; lia].
  - eexists. split; [done |].
    rewrite Forall_forall in Hp. apply Hp, Qlist_max_elem.
Qed.

Lemma is_zero_fin (q : Q) : q == 0 → is_zero (fin q) = true.
Proof. intros Hq. unfold is_zero. simpl. by apply Qeq_bool_iff. Qed.

Lemma rolling_lookup (agg : Series → num) (w : nat) (s : Series) (i : nat) :
  (i < length s)%nat → rolling agg w s !! i = Some (agg (rolling_window w s i)).
Proof.
  intros Hi. unfold rolling. rewrite list_lookup_fmap, lookup_seq_lt by done.
  reflexivity.
Qed.

Lemma length_rolling (agg : Series → num) (w : nat) (s : Series) :
  length (rolling agg w s) = length s.
Proof. unfold rolling. by rewrite length_fmap, length_seq. Qed.

Lemma rolling_window_constant (v : Q) (w : nat) (s : Series) (i : nat) :
  all_equal_to v s → (0 < w)%nat → (i < length s)%nat →
  constant_series v (rolling_window w s i).
Proof.
  intros Hall Hw Hi. unfold rolling_window. split.
  - intros Hnil. apply (f_equal length) in Hnil.
    rewrite length_drop, length_take in Hnil. cbn [length] in Hnil. lia.
  - by apply Forall_drop, Forall_take.
Qed.

Lemma normalize_series_minmax_falsy (s : Series) (window : option Z) :
  truthy window = false →
  normalize_series s "minmax" window
  = Ok (series_scalar ndiv (series_scalar nsub s (series_min s))
          (if is_zero (series_max s - series_min s)%num then fin 1
           else (series_max s - series_min s)%num)).
Proof. intros Hw. unfold normalize_series. by rewrite Hw. Qed.

Lemma normalize_series_minmax_rolling (s : Series) (w : Z) :
  (0 < w)%Z →
  normalize_series s "minmax" (Some w)
  = Ok (series_binop ndiv
          (series_binop nsub s (rolling series_min (Z.to_nat w) s))
          ((λ r, if is_zero r then fin 1 else r) <$>
           series_binop nsub (rolling series_max (Z.to_nat w) s)
                             (rolling series_min (Z.to_nat w) s))).
Proof.
  intros Hw. unfold normalize_series, truthy.
  assert (Hnz : (w =? 0)%Z = false) by lia. rewrite Hnz.
  change (default 0%Z (Some w)) with w.
  destruct (decide (w < 0)%Z) as [Hneg | _]; [lia | done].
Qed.

Lemma normalize_constant_global (v : Q) (s : Series) (window : option Z) :
  constant_series v s → truthy window = false →
  ∃ norm, normalize_series s "minmax" window = Ok norm
          ∧ length norm = length s ∧ all_equal_to 0 norm.
Proof.
  intros Hc Hw.
  destruct (series_min_constant v s Hc) as (mn & Hmn & Hmnv).
  destruct (series_max_constant v s Hc) as (mx & Hmx & Hmxv).
  rewrite normalize_series_minmax_falsy, Hmn, Hmx by done.
  change (fin mx - fin mn)%num with (fin (mx - mn)).
  rewrite is_zero_fin by lra.
  eexists. split; [reflexivity |].
  unfold series_scalar. split; [by rewrite !length_fmap |].
  destruct Hc as [_ Hall]. unfold all_equal_to in *.
  rewrite !Forall_fmap. eapply Forall_impl; [exact Hall |].
  intros e He. destruct (num_eq_fin_inv e v He) as (x & -> & Hx).
  constructor. field_simplify. lra.
Qed.

Lemma normalize_constant_rolling (v : Q) (s : Series) (w : Z) :
  constant_series v s → (0 < w)%Z →
  ∃ norm, normalize_series s "minmax" (Some w) = Ok norm
          ∧ length norm = length s ∧ all_equal_to 0 norm.
Proof.
  intros [Hne Hall] Hw.
  rewrite normalize_series_minmax_rolling by done.
  eexists. split; [reflexivity |].
  assert (Hlen : ∀ agg agg',
    length (series_binop ndiv (series_binop nsub s (rolling agg (Z.to_nat w) s))
              ((λ r, if is_zero r then fin 1 else r) <$>
               series_binop nsub (rolling agg' (Z.to_nat w) s)
                                 (rolling agg (Z.to_nat w) s)))
    = length s).
  { intros. rewrite !length_series_binop, length_fmap, !length_series_binop,
      !length_rolling. lia. }
  split; [apply Hlen |].
  unfold all_equal_to. apply Forall_lookup. intros i e He.
  assert (Hi : (i < length s)%nat).
  { rewrite <- (Hlen series_min series_max). by eapply lookup_lt_Some. }
  assert (Hwin : constant_series v (rolling_window (Z.to_nat w) s i))
    by (apply rolling_window_constant; [done | lia | done]).
  destruct (series_min_constant _ _ Hwin) as (mn & Hmn & Hmnv).
  destruct (series_max_constant _ _ Hwin) as (mx & Hmx & Hmxv).
  destruct (all_equal_to_lookup v s i Hall Hi) as (x & Hx & Hxv).
  assert (Hmins : rolling series_min (Z.to_nat w) s !! i = Some (fin mn))
    by (by rewrite rolling_lookup, Hmn).
  assert (Hmaxs : rolling series_max (Z.to_nat w) s !! i = Some (fin mx))
    by (by rewrite rolling_lookup, Hmx).
  assert (Hrange :
    ((λ r, if is_zero r then fin 1 else r) <$>
     series_binop nsub (rolling series_max (Z.to_nat w) s)
                       (rolling series_min (Z.to_nat w) s)) !! i
    = Some (fin 1)).
  { rewrite list_lookup_fmap.
    rewrite (series_binop_lookup _ _ _ _ _ _ Hmaxs Hmins).
    change (Some (if is_zero (fin (mx - mn)) then fin 1 else fin (mx - mn))
            = Some (fin 1)).
    by rewrite is_zero_fin by lra. }
  rewrite (series_binop_lookup _ _ _ _ _ _
             (series_binop_lookup nsub _ _ _ _ _ Hx Hmins) Hrange) in He.
  injection He as <-.
  constructor. field_simplify. lra.
Qed.

Lemma countb_all (p : Q → bool) (l : list Q) :
  Forall (λ y, p y = true) l → countb p l = inject_Z (Z.of_nat (length l)).
Proof.
  intros Hall. unfold countb. do 3 f_equal.
  induction Hall as [|y l Hy Hl IH]; [done |].
  cbn [List.filter]. rewrite Hy. cbn [length]. by rewrite IH.
Qed.

Lemma countb_none (p : Q → bool) (l : list Q) :
  Forall (λ y, p y = false) l → countb p l = 0.
Proof.
  intros Hnone. unfold countb.
  replace (List.filter p l) with (@nil Q); [done |].
  induction Hnone as [|y l Hy Hl IH]; [done |].
  cbn [List.filter]. by rewrite Hy.
Qed.

Lemma normalize_constant_percentile (v : Q) (s : Series) (window : option Z) :
  constant_series v s →
  let n := inject_Z (Z.of_nat (length s)) in
  ∃ norm, normalize_series s "percentile" window = Ok norm
          ∧ length norm = length s
          ∧ all_equal_to ((n + 1) / (2 * n)) norm
          ∧ ¬ all_equal_to 0 norm.
Proof.
  intros [Hne Hall] n.
  assert (Hn : 0 < n).
  { unfold n. destruct s; [done |]. cbn [length].
    change 0 with (inject_Z 0). rewrite <- Zlt_Qlt. lia. }
  assert (Hpos : 0 < (n + 1) / (2 * n)) by (apply Qlt_shift_div_l; lra).
  destruct (all_equal_to_present v s Hall) as [Hlen Hp].
  assert (Hranks : all_equal_to ((n + 1) / (2 * n)) (rank_pct s)).
  { unfold rank_pct, all_equal_to in *.
    rewrite Forall_fmap. eapply Forall_impl; [exact Hall |].
    intros e He. destruct (num_eq_fin_inv e v He) as (x & -> & Hx). simpl.
    rewrite (countb_none (λ y, Qltb y x)), (countb_all (λ y, Qeq_bool y x)),
      (countb_all (λ _, true)), Hlen.
    - constructor. fold n. clearbody n. field. lra.
    - by apply Forall_true.
    - eapply Forall_impl; [exact Hp |]. intros y Hy. simpl.
      apply Qeq_bool_iff. simpl in Hy. lra.
    - eapply Forall_impl; [exact Hp |]. intros y Hy. simpl.
      apply not_true_iff_false. rewrite Qltb_lt. simpl in Hy. lra. }
  exists (rank_pct s). split_and!; [done | | done |].
  - unfold rank_pct. by rewrite length_fmap.
  - intros Hzero. destruct s as [|e s]; [done |].
    unfold all_equal_to in *.
    apply Forall_inv in Hranks, Hzero.
    destruct (num_eq_fin_inv _ _ Hranks) as (a & Ha & Hav).
    destruct (num_eq_fin_inv _ _ Hzero) as (b & Hb & Hbv).
    rewrite Ha in Hb. injection Hb as <-. lra.
Qed.

(** C6, as the specification states it, in the percentile mode: the
    constant series 50, 50, 50 is mapped to 2/3, 2/3, 2/3. *)
Lemma normalize_series_constant_percentile_nonzero :
  ∃ norm : Series,
    normalize_series [fin 50; fin 50; fin 50] "percentile" None = Ok norm
    ∧ norm =s= [fin (2 # 3); fin (2 # 3); fin (2 # 3)]
    ∧ ¬ all_equal_to 0 norm.
Proof.
  eexists. split; [by vm_compute |]. split.
  - repeat constructor.
  - intros Hzero. apply Forall_inv in Hzero. inversion Hzero as [? ? Hq|].
    by vm_compute in Hq.
Qed.

(** C6, amended.  In the min-max mode, with no window or with any window
    of a non-negative size, a constant non-empty series is normalized
    without an exception to a series of the same length whose values are
    all the number 0, none being NaN.  In the percentile mode it is
    mapped, without an exception either, to the constant (n + 1) / (2 n),
    n being its length: the shared average rank, which is not 0. *)
Theorem normalize_series_constant (s : Series) (v : Q) (window : option Z) :
  constant_series v s →
  (∀ w, window = Some w → (0 ≤ w)%Z) →
  (∃ norm, normalize_series s "minmax" window = Ok norm
           ∧ length norm = length s ∧ all_equal_to 0 norm)
  ∧ (let n := inject_Z (Z.of_nat (length s)) in
     ∃ norm, normalize_series s "percentile" window = Ok norm
             ∧ length norm = length s
             ∧ all_equal_to ((n + 1) / (2 * n)) norm
             ∧ ¬ all_equal_to 0 norm).
Proof.
  intros Hc Hw. split; [| by apply (normalize_constant_percentile v)].
  destruct window as [w|]; [| by apply (normalize_constant_global v)].
  specialize (Hw w eq_refl).
  destruct (decide (w = 0)%Z) as [-> | Hnz].
  - by apply (normalize_constant_global v).
  - apply (normalize_constant_rolling v); [done | lia].
Qed.

Lemma normalize_series_constant_witness :
  (∃ norm, normalize_series [fin 50; fin 50; fin 50] "minmax" (Some 2%Z) = Ok norm
           ∧ length norm = 3%nat ∧ all_equal_to 0 norm)
  ∧ (∃ norm, normalize_series [fin 50; fin 50; fin 50] "percentile" (Some 2%Z) = Ok norm
             ∧ length norm = 3%nat
             ∧ all_equal_to ((inject_Z 3 + 1) / (2 * inject_Z 3)) norm
             ∧ ¬ all_equal_to 0 norm).
Proof.
  apply (normalize_series_constant [fin 50; fin 50; fin 50] 50 (Some 2%Z)).
  - split; [done |]. repeat constructor.
  - intros w [= <-]. lia.
Defined.

(** ** Efficiency calculator *)

Ltac series_eq :=
  unfold series_eq;
  repeat (constructor; [first [by constructor | constructor; by vm_compute] |]);
  constructor.

(** C2, as the specification states it, in its first case: at full power
    the realized utilization is 100, so the gap to a reported utilization
    of 80 is -20, not 30. *)
Lemma efficiency_gap_full_power_not_30 :
  ∃ pif realized rfu : Series,
    calculate_power_intensity_factor (one_gpu "NVIDIA A100-SXM4-40GB" 400)
      "power_usage_watts" "gpu_model" = Ok pif
    ∧ calculate_realized_tflops (one_gpu "NVIDIA A100-SXM4-40GB" 400)
        pif "gpu_model" = Ok realized
    ∧ calculate_rfu (one_gpu "NVIDIA A100-SXM4-40GB" 400)
        realized "gpu_model" = Ok rfu
    ∧ rfu =s= [fin 100]
    ∧ ¬ calculate_efficiency_gap [fin 80] rfu =s= [fin 30].
Proof.
  eexists _, _, _. split_and!; [by vm_compute.. | series_eq |].
  intros Hgap. apply Forall2_cons_1 in Hgap as [Hq _].
  inversion Hq as [? ? Hq'|]. by vm_compute in Hq'.
Qed.

(** C2, amended.  With the specification of the A100 (max_power 400,
    achievable throughput 102): a power of 400 gives PIF 1, realized
    throughput 102 and RFU 100; a power of 200 gives PIF 0.5, realized
    throughput 51 and RFU 50; against a reported utilization of 80 the
    efficiency gap is -20 in the first case and 30 in the second. *)
Theorem efficiency_scenario_a100 :
  GPU_SPECS !! "NVIDIA A100-SXM4-40GB"
  = Some {[ "max_power" := 400; "achievable_tflops" := 102 ]}
  ∧ (∃ pif realized rfu : Series,
       calculate_power_intensity_factor (one_gpu "NVIDIA A100-SXM4-40GB" 400)
         "power_usage_watts" "gpu_model" = Ok pif
       ∧ pif =s= [fin 1]
       ∧ calculate_realized_tflops (one_gpu "NVIDIA A100-SXM4-40GB" 400)
           pif "gpu_model" = Ok realized
       ∧ realized =s= [fin 102]
       ∧ calculate_rfu (one_gpu "NVIDIA A100-SXM4-40GB" 400)
           realized "gpu_model" = Ok rfu
       ∧ rfu =s= [fin 100]
       ∧ calculate_efficiency_gap [fin 80] rfu =s= [fin (-20)])
  ∧ (∃ pif realized rfu : Series,
       calculate_power_intensity_factor (one_gpu "NVIDIA A100-SXM4-40GB" 200)
         "power_usage_watts" "gpu_model" = Ok pif
       ∧ pif =s= [fin 0.5]
       ∧ calculate_realized_tflops (one_gpu "NVIDIA A100-SXM4-40GB" 200)
           pif "gpu_model" = Ok realized
       ∧ realized =s= [fin 51]
       ∧ calculate_rfu (one_gpu "NVIDIA A100-SXM4-40GB" 200)
           realized "gpu_model" = Ok rfu
       ∧ rfu =s= [fin 50]
       ∧ calculate_efficiency_gap [fin 80] rfu =s= [fin 30]).
Proof.
  split_and!.
  - by vm_compute.
  - eexists _, _, _.
    split_and!; [by vm_compute | series_eq | by vm_compute | series_eq
                | by vm_compute | series_eq | series_eq].
  - eexists _, _, _.
    split_and!; [by vm_compute | series_eq | by vm_compute | series_eq
                | by vm_compute | series_eq | series_eq].
Qed.

Lemma spec_field_default (specs : gmap string (gmap string Q))
    (model field : string) (dflt : Q) :
  specs !! model = None → spec_field specs field dflt (Some model) = dflt.
Proof. intros Hm. unfold spec_field, dict_get. by rewrite Hm. Qed.

(** Entering a model in the table with the values that the code falls
    back to does not change what is read from the table. *)
Lemma spec_field_insert_default (model : string) (x : option string) :
  GPU_SPECS !! model = None →
  spec_field (<[model := default_spec]> GPU_SPECS) "max_power" 400 x
  = spec_field GPU_SPECS "max_power" 400 x
  ∧ spec_field (<[model := default_spec]> GPU_SPECS) "achievable_tflops" 100 x
    = spec_field GPU_SPECS "achievable_tflops" 100 x.
Proof.
  intros Hm. destruct x as [m|]; [| done].
  unfold spec_field. unfold dict_get at 2 4 6 8.
  destruct (decide (m = model)) as [-> | Hne].
  - rewrite lookup_insert_eq, Hm. done.
  - by rewrite lookup_insert_ne.
Qed.

(** C8.  For a model that is not in [GPU_SPECS], PIF and realized
    throughput are computed without an exception, with max_power 400 and
    achievable throughput 100, and the whole computation is the one that
    the table would give with that model entered with those two values. *)
Theorem unknown_model_uses_default_spec (model : string) :
  GPU_SPECS !! model = None →
  (∀ (df : DataFrame) (power_col model_col : string),
     calculate_power_intensity_factor_with (<[model := default_spec]> GPU_SPECS)
       df power_col model_col
     = calculate_power_intensity_factor df power_col model_col)
  ∧ (∀ (df : DataFrame) (pif : Series) (model_col : string),
       calculate_realized_tflops_with (<[model := default_spec]> GPU_SPECS)
         df pif model_col
       = calculate_realized_tflops df pif model_col)
  ∧ (∀ (df : DataFrame) (power_col model_col : string)
       (powers : Series) (models : list (option string)) (i : nat) (p : Q),
       df !! power_col = Some (NumCol powers) →
       df !! model_col = Some (StrCol models) →
       powers !! i = Some (fin p) →
       models !! i = Some (Some model) →
       ∃ pif realized : Series,
         calculate_power_intensity_factor df power_col model_col = Ok pif
         ∧ calculate_realized_tflops df pif model_col = Ok realized
         ∧ pif !! i = Some (fin (Qmin (Qmax (p / 400) 0) 1))
         ∧ realized !! i = Some (fin (100 * Qmin (Qmax (p / 400) 0) 1))).
Proof.
  intros Hm. split_and!.
  - intros df power_col model_col.
    unfold calculate_power_intensity_factor, calculate_power_intensity_factor_with.
    destruct (getcol df model_col) as [models|]; [| done]. simpl.
    destruct (getnum df power_col) as [power|]; [| done]. simpl.
    do 3 f_equal. apply list_fmap_ext. intros j x _.
    f_equal. by apply spec_field_insert_default.
  - intros df pif model_col.
    unfold calculate_realized_tflops, calculate_realized_tflops_with.
    destruct (getcol df model_col) as [models|]; [| done]. simpl.
    do 2 f_equal. apply list_fmap_ext. intros j x _.
    f_equal. by apply spec_field_insert_default.
  - intros df power_col model_col powers models i p Hpow Hmod Hp Hmi.
    unfold calculate_power_intensity_factor, calculate_power_intensity_factor_with,
      calculate_realized_tflops, calculate_realized_tflops_with, getnum, getcol.
    rewrite Hpow, Hmod. simpl.
    eexists _, _. split; [reflexivity |]. split; [reflexivity |].
    assert (Hpif :
      clip 0 1 (series_binop ndiv powers
                  ((λ x, fin (spec_field GPU_SPECS "max_power" 400 x)) <$> models))
        !! i = Some (fin (Qmin (Qmax (p / 400) 0) 1))).
    { unfold clip. rewrite list_lookup_fmap.
      erewrite series_binop_lookup; [| exact Hp |].
      2:{ rewrite list_lookup_fmap, Hmi. simpl.
          by rewrite spec_field_default. }
      reflexivity. }
    split; [exact Hpif |].
    erewrite series_binop_lookup; [| | exact Hpif].
    2:{ rewrite list_lookup_fmap, Hmi. simpl.
        by rewrite spec_field_default. }
    reflexivity.
Qed.

Lemma unknown_model_uses_default_spec_witness :
  (∀ (df : DataFrame) (power_col model_col : string),
     calculate_power_intensity_factor_with
       (<["NVIDIA L4" := default_spec]> GPU_SPECS) df power_col model_col
     = calculate_power_intensity_factor df power_col model_col)
  ∧ (∀ (df : DataFrame) (pif : Series) (model_col : string),
       calculate_realized_tflops_with
         (<["NVIDIA L4" := default_spec]> GPU_SPECS) df pif model_col
       = calculate_realized_tflops df pif model_col)
  ∧ (∃ pif realized : Series,
       calculate_power_intensity_factor (one_gpu "NVIDIA L4" 300)
         "power_usage_watts" "gpu_model" = Ok pif
       ∧ calculate_realized_tflops (one_gpu "NVIDIA L4" 300) pif "gpu_model"
         = Ok realized
       ∧ pif !! 0%nat = Some (fin (Qmin (Qmax (300 / 400) 0) 1))
       ∧ realized !! 0%nat = Some (fin (100 * Qmin (Qmax (300 / 400) 0) 1))).
Proof.
  destruct (unknown_model_uses_default_spec "NVIDIA L4" eq_refl)
    as (Hpif & Hrealized & Hrow).
  split_and!; [exact Hpif | exact Hrealized |].
  by apply (Hrow (one_gpu "NVIDIA L4" 300) "power_usage_watts" "gpu_model"
              [fin 300] [Some "NVIDIA L4"] 0%nat 300).
Defined.

(** ** Computations on the store *)

Lemma M_bind_ok {A B : Type} (m : M A) (k : A → M B)
    (h h' : gmap loc DataFrame) (a : A) :
  m h = (Ok a, h') → (m ≫= k) h = k a h'.
Proof. intros Hm. unfold mbind, M_bind. by rewrite Hm. Qed.

Lemma M_bind_lift {A B : Type} (r : result A) (k : A → M B)
    (h : gmap loc DataFrame) (a : A) :
  r = Ok a → (lift r ≫= k) h = k a h.
Proof. intros ->. reflexivity. Qed.

Lemma touches_only_ret {A : Type} (l : loc) (a : A) : touches_only l (mret a).
Proof. by intros h l0 _. Qed.

Lemma touches_only_lift {A : Type} (l : loc) (r : result A) : touches_only l (lift r).
Proof. by intros h l0 _. Qed.

Lemma touches_only_deref (l df : loc) : touches_only l (deref df).
Proof. intros h l0 _. unfold deref. by destruct (h !! df). Qed.

Lemma touches_only_setcol (l : loc) (c : string) (col : Column) :
  touches_only l (setcol l c col).
Proof.
  intros h l0 Hne. unfold setcol. destruct (h !! l); [| done].
  simpl. by rewrite lookup_insert_ne.
Qed.

Lemma touches_only_bind {A B : Type} (l : loc) (m : M A) (k : A → M B) :
  touches_only l m → (∀ a, touches_only l (k a)) → touches_only l (m ≫= k).
Proof.
  intros Hm Hk h l0 Hne. unfold mbind, M_bind.
  specialize (Hm h l0 Hne). destruct (m h) as [[a|e] h']; simpl in *.
  - by rewrite Hk.
  - done.
Qed.

Lemma deref_insert (l : loc) (t : DataFrame) (h : gmap loc DataFrame) :
  deref l (<[l := t]> h) = (Ok t, <[l := t]> h).
Proof. unfold deref. by rewrite lookup_insert_eq. Qed.

Lemma setcol_insert (l : loc) (c : string) (col : Column) (t : DataFrame)
    (h : gmap loc DataFrame) :
  setcol l c col (<[l := t]> h) = (Ok (), <[l := <[c := col]> t]> h).
Proof. unfold setcol. by rewrite lookup_insert_eq, insert_insert_eq. Qed.

Lemma copy_fresh (l : loc) (t : DataFrame) (h : gmap loc DataFrame) :
  h !! l = Some t →
  copy l h = (Ok (fresh (dom h)), <[fresh (dom h) := t]> h)
  ∧ h !! fresh (dom h) = None.
Proof.
  intros Hl. unfold copy. rewrite Hl. split; [done |].
  apply not_elem_of_dom, is_fresh.
Qed.

(** ** The calculator on a table of telemetry *)

Lemma length_column_keys (col : Column) :
  length (column_keys col) = column_length col.
Proof. destruct col; simpl; by rewrite ?length_fmap. Qed.

Lemma length_clip (lo hi : Q) (s : Series) : length (clip lo hi s) = length s.
Proof. unfold clip. by rewrite length_fmap. Qed.

Lemma calculate_power_intensity_factor_total
    (t : DataFrame) (models : Column) (power : Series) :
  t !! "gpu_model" = Some models →
  t !! "power_usage_watts" = Some (NumCol power) →
  ∃ pif, calculate_power_intensity_factor t "power_usage_watts" "gpu_model" = Ok pif
         ∧ length pif = (length power `max` column_length models)%nat.
Proof.
  intros Hm Hp.
  unfold calculate_power_intensity_factor, calculate_power_intensity_factor_with,
    getnum, getcol.
  rewrite Hm, Hp. simpl. eexists. split; [reflexivity |].
  by rewrite length_clip, length_series_binop, length_fmap, length_column_keys.
Qed.

Lemma calculate_realized_tflops_total
    (t : DataFrame) (models : Column) (pif : Series) :
  t !! "gpu_model" = Some models →
  ∃ realized, calculate_realized_tflops t pif "gpu_model" = Ok realized
              ∧ length realized = (column_length models `max` length pif)%nat.
Proof.
  intros Hm.
  unfold calculate_realized_tflops, calculate_realized_tflops_with, getcol.
  rewrite Hm. simpl. eexists. split; [reflexivity |].
  by rewrite length_series_binop, length_fmap, length_column_keys.
Qed.

Lemma calculate_rfu_total (t : DataFrame) (models : Column) (realized : Series) :
  t !! "gpu_model" = Some models →
  ∃ rfu, calculate_rfu t realized "gpu_model" = Ok rfu
         ∧ length rfu = (length realized `max` column_length models)%nat.
Proof.
  intros Hm. unfold calculate_rfu, calculate_rfu_with, getcol.
  rewrite Hm. simpl. eexists. split; [reflexivity |].
  unfold series_scalar.
  by rewrite length_clip, length_fmap, length_series_binop, length_fmap,
    length_column_keys.
Qed.

(** The calculator reads nothing of the table but the model column. *)
Lemma calculate_realized_tflops_model_col (t t' : DataFrame) (pif : Series) :
  t' !! "gpu_model" = t !! "gpu_model" →
  calculate_realized_tflops t' pif "gpu_model"
  = calculate_realized_tflops t pif "gpu_model".
Proof.
  intros Heq. unfold calculate_realized_tflops, calculate_realized_tflops_with, getcol.
  by rewrite Heq.
Qed.

Lemma calculate_rfu_model_col (t t' : DataFrame) (realized : Series) :
  t' !! "gpu_model" = t !! "gpu_model" →
  calculate_rfu t' realized "gpu_model" = calculate_rfu t realized "gpu_model".
Proof.
  intros Heq. unfold calculate_rfu, calculate_rfu_with, getcol. by rewrite Heq.
Qed.

Lemma getnum_lookup (t : DataFrame) (c : string) (s : Series) :
  t !! c = Some (NumCol s) → getnum t c = Ok s.
Proof. intros Hc. unfold getnum, getcol. by rewrite Hc. Qed.

Lemma classify_efficiency_total (gpu_util pif : Series) :
  length gpu_util = length pif →
  ∃ labels, classify_efficiency gpu_util pif = Ok labels.
Proof.
  intros Hlen. unfold classify_efficiency.
  rewrite decide_True; [eauto |].
  rewrite length_zip_with. lia.
Qed.

(** ** [add_efficiency_metrics] on a copy *)

Ltac touches_only_steps :=
  repeat first
    [ apply touches_only_ret | apply touches_only_lift | apply touches_only_deref
    | apply touches_only_setcol | apply touches_only_bind; [| intros ?] ].

(** After the copy, the computation changes the copy alone, whether or
    not it ends with an exception. *)
Lemma add_efficiency_metrics_frame (h : gmap loc DataFrame) (df : loc) (t : DataFrame) :
  h !! df = Some t →
  ∀ l, is_Some (h !! l) → (add_efficiency_metrics df false h).2 !! l = h !! l.
Proof.
  intros Hdf l Hl.
  destruct (copy_fresh df t h Hdf) as [Hcopy Hfresh].
  unfold add_efficiency_metrics. cbn [negb].
  rewrite (M_bind_ok _ _ _ _ _ Hcopy).
  assert (Hne : l ≠ fresh (dom h)).
  { intros ->. rewrite Hfresh in Hl. by destruct Hl. }
  match goal with
  | |- (?m _).2 !! _ = _ =>
      assert (Hbody : touches_only (fresh (dom h)) m) by touches_only_steps
  end.
  rewrite (Hbody _ l Hne). by rewrite lookup_insert_ne.
Qed.

(** C10.  Called with [inplace=False] on a table of the store,
    [add_efficiency_metrics] leaves every table that the store held, the
    argument among them, as it was, whether it returns or raises.  On a
    table of GPU telemetry it returns a new object: the argument's table
    with the six derived columns assigned, every other column being the
    argument's. *)
Theorem add_efficiency_metrics_copy_leaves_argument
    (h : gmap loc DataFrame) (df : loc) (t : DataFrame) (n : nat) :
  h !! df = Some t →
  (∀ l, is_Some (h !! l) → (add_efficiency_metrics df false h).2 !! l = h !! l)
  ∧ (dcgm_table n t →
     ∃ (df' : loc) (t' : DataFrame)
       (util used free pif realized rfu : Series) (labels : list string),
       add_efficiency_metrics df false h = (Ok df', <[df' := t']> h)
       ∧ h !! df' = None
       ∧ t !! "gpu_utilization_pct" = Some (NumCol util)
       ∧ t !! "memory_used_mb" = Some (NumCol used)
       ∧ t !! "memory_free_mb" = Some (NumCol free)
       ∧ calculate_power_intensity_factor t "power_usage_watts" "gpu_model" = Ok pif
       ∧ calculate_realized_tflops t pif "gpu_model" = Ok realized
       ∧ calculate_rfu t realized "gpu_model" = Ok rfu
       ∧ classify_efficiency util pif = Ok labels
       ∧ t' = <["efficiency_class" := StrCol (Some <$> labels)]>
               (<["memory_pressure_pct" :=
                    NumCol (calculate_memory_pressure used free)]>
               (<["efficiency_gap" := NumCol (calculate_efficiency_gap util rfu)]>
               (<["rfu_pct" := NumCol rfu]>
               (<["realized_tflops" := NumCol realized]>
               (<["power_intensity_factor" := NumCol pif]> t)))))
       ∧ (∀ c, c ∉ derived_columns → t' !! c = t !! c)
       ∧ (∀ c, c ∈ derived_columns → is_Some (t' !! c))).
Proof.
  intros Hdf. split; [by apply (add_efficiency_metrics_frame h df t) |].
  intros ([power Hpower] & [models Hmodels] & [util Hutil] & [used Hused]
          & [free Hfree] & Hlen).
  destruct (copy_fresh df t h Hdf) as [Hcopy Hfresh].
  destruct (calculate_power_intensity_factor_total t models power Hmodels Hpower)
    as (pif & Hpif & Hpif_len).
  destruct (calculate_realized_tflops_total t models pif Hmodels)
    as (realized & Hrealized & Hrealized_len).
  destruct (calculate_rfu_total t models realized Hmodels)
    as (rfu & Hrfu & Hrfu_len).
  pose proof (Hlen _ _ Hpower) as Hn1. pose proof (Hlen _ _ Hmodels) as Hn2.
  pose proof (Hlen _ _ Hutil) as Hn3. simpl in Hn1, Hn3.
  destruct (classify_efficiency_total util pif) as [labels Hlabels]; [lia |].
  exists (fresh (dom h)).
  eexists _, util, used, free, pif, realized, rfu, labels.
  split_and!; [| done.. | reflexivity | |].
  - unfold add_efficiency_metrics. cbn [negb].
    rewrite (M_bind_ok _ _ _ _ _ Hcopy).
    (* power_intensity_factor *)
    rewrite (M_bind_ok _ _ _ _ _ (deref_insert _ _ _)).
    rewrite (M_bind_lift _ _ _ pif) by done.
    rewrite (M_bind_ok _ _ _ _ _ (setcol_insert _ _ _ _ _)).
    (* realized_tflops *)
    rewrite (M_bind_ok _ _ _ _ _ (deref_insert _ _ _)).
    rewrite (M_bind_lift _ _ _ pif) by (apply getnum_lookup; by simplify_map_eq).
    rewrite (M_bind_lift _ _ _ realized)
      by (by rewrite (calculate_realized_tflops_model_col t) by by simplify_map_eq).
    rewrite (M_bind_ok _ _ _ _ _ (setcol_insert _ _ _ _ _)).
    (* rfu_pct *)
    rewrite (M_bind_ok _ _ _ _ _ (deref_insert _ _ _)).
    rewrite (M_bind_lift _ _ _ realized)
      by (apply getnum_lookup; by simplify_map_eq).
    rewrite (M_bind_lift _ _ _ rfu)
      by (by rewrite (calculate_rfu_model_col t) by by simplify_map_eq).
    rewrite (M_bind_ok _ _ _ _ _ (setcol_insert _ _ _ _ _)).
    (* efficiency_gap *)
    rewrite (M_bind_ok _ _ _ _ _ (deref_insert _ _ _)).
    rewrite (M_bind_lift _ _ _ util) by (apply getnum_lookup; by simplify_map_eq).
    rewrite (M_bind_lift _ _ _ rfu) by (apply getnum_lookup; by simplify_map_eq).
    rewrite (M_bind_ok _ _ _ _ _ (setcol_insert _ _ _ _ _)).
    (* memory_pressure_pct *)
    rewrite (M_bind_ok _ _ _ _ _ (deref_insert _ _ _)).
    rewrite (M_bind_lift _ _ _ used) by (apply getnum_lookup; by simplify_map_eq).
    rewrite (M_bind_lift _ _ _ free) by (apply getnum_lookup; by simplify_map_eq).
    rewrite (M_bind_ok _ _ _ _ _ (setcol_insert _ _ _ _ _)).
    (* efficiency_class *)
    rewrite (M_bind_ok _ _ _ _ _ (deref_insert _ _ _)).
    rewrite (M_bind_lift _ _ _ util) by (apply getnum_lookup; by simplify_map_eq).
    rewrite (M_bind_lift _ _ _ pif) by (apply getnum_lookup; by simplify_map_eq).
    rewrite (M_bind_lift _ _ _ labels) by done.
    rewrite (M_bind_ok _ _ _ _ _ (setcol_insert _ _ _ _ _)).
    reflexivity.
  - intros c Hc. unfold derived_columns in Hc.
    rewrite !not_elem_of_cons in Hc. destruct_and!.
    by rewrite !lookup_insert_ne.
  - intros c Hc. unfold derived_columns in Hc.
    rewrite !elem_of_cons, elem_of_nil in Hc.
    destruct_or!; subst; simplify_map_eq; by eauto.
Qed.

Lemma sample_dcgm_table : dcgm_table 2 sample_dcgm.
Proof.
  unfold dcgm_table, sample_dcgm.
  split_and!; [by eexists; vm_compute.. |].
  intros c col Hc.
  repeat (apply lookup_insert_Some in Hc as [[_ <-] | [_ Hc]]; [done |]).
  by rewrite lookup_empty in Hc.
Qed.

Lemma add_efficiency_metrics_copy_leaves_argument_witness :
  (∀ l, is_Some (({[ 1%positive := sample_dcgm ]} : gmap loc DataFrame) !! l) →
        (add_efficiency_metrics 1%positive false {[ 1%positive := sample_dcgm ]}).2 !! l
        = ({[ 1%positive := sample_dcgm ]} : gmap loc DataFrame) !! l)
  ∧ ∃ (df' : loc) (t' : DataFrame),
      (add_efficiency_metrics 1%positive false {[ 1%positive := sample_dcgm ]}).1
      = Ok df'
      ∧ (add_efficiency_metrics 1%positive false {[ 1%positive := sample_dcgm ]}).2
        = <[df' := t']> {[ 1%positive := sample_dcgm ]}
      ∧ df' ≠ 1%positive
      ∧ (∀ c, c ∉ derived_columns → t' !! c = sample_dcgm !! c)
      ∧ (∀ c, c ∈ derived_columns → is_Some (t' !! c)).
Proof.
  destruct (add_efficiency_metrics_copy_leaves_argument
              {[ 1%positive := sample_dcgm ]} 1%positive sample_dcgm 2
              (lookup_singleton_eq _ _))
    as [Hframe Hnew].
  split; [exact Hframe |].
  destruct (Hnew sample_dcgm_table)
    as (df' & t' & util & used & free & pif & realized & rfu & labels
        & Hrun & Hfresh & _ & _ & _ & _ & _ & _ & _ & _ & Hsame & Hderived).
  exists df', t'. rewrite Hrun. split_and!; [done | done | | done | done].
  intros ->. by rewrite lookup_singleton_eq in Hfresh.
Defined.

(** ** Validators *)

Lemma nlt_fin_true (x : num) (c : Q) :
  (x <? fin c)%num = true ↔ ∃ a, x = fin a ∧ a < c.
Proof.
  destruct x as [a|]; simpl.
  - rewrite Qltb_lt. split; [eauto | by intros (? & [= <-] & ?)].
  - split; [done | by intros (? & ? & ?)].
Qed.

Lemma ngt_fin_true (x : num) (c : Q) :
  (x >? fin c)%num = true ↔ ∃ a, x = fin a ∧ c < a.
Proof.
  destruct x as [a|]; simpl.
  - unfold ngt, nlt. simpl. rewrite Qltb_lt.
    split; [eauto | by intros (? & [= <-] & ?)].
  - split; [done | by intros (? & ? & ?)].
Qed.

Lemma existsb_lookup {A : Type} (f : A → bool) (l : list A) :
  existsb f l = true ↔ ∃ i x, l !! i = Some x ∧ f x = true.
Proof.
  rewrite existsb_exists. split.
  - intros (x & Hin%list_elem_of_In%list_elem_of_lookup & Hf).
    destruct Hin as [i Hi]. eauto.
  - intros (i & x & Hi & Hf). exists x. split; [| done].
    apply list_elem_of_In, list_elem_of_lookup. eauto.
Qed.

Lemma any_lt_true (s : Series) (c : Q) :
  any_lt s c = true ↔ ∃ i x, s !! i = Some (fin x) ∧ x < c.
Proof.
  unfold any_lt. rewrite existsb_lookup. split.
  - intros (i & x & Hi & (a & -> & Ha)%nlt_fin_true). eauto.
  - intros (i & x & Hi & Hx). exists i, (fin x). split; [done |].
    apply nlt_fin_true. eauto.
Qed.

Lemma any_gt_true (s : Series) (c : Q) :
  any_gt s c = true ↔ ∃ i x, s !! i = Some (fin x) ∧ c < x.
Proof.
  unfold any_gt. rewrite existsb_lookup. split.
  - intros (i & x & Hi & (a & -> & Ha)%ngt_fin_true). eauto.
  - intros (i & x & Hi & Hx). exists i, (fin x). split; [done |].
    apply ngt_fin_true. eauto.
Qed.

Lemma any_exceeds_true (a b : Series) :
  any_exceeds a b = true
  ↔ ∃ i x y, a !! i = Some (fin x) ∧ b !! i = Some (fin y) ∧ y < x.
Proof.
  unfold any_exceeds. rewrite existsb_lookup. split.
  - intros (i & v & Hi & Hv). simpl in Hv. subst v.
    rewrite lookup_zip_with in Hi.
    destruct (a !! i) as [x|] eqn:Ha; [| done]. simpl in Hi.
    destruct (b !! i) as [y|] eqn:Hb; [| done]. simpl in Hi.
    injection Hi as Hgt.
    destruct x as [x|], y as [y|]; try done.
    exists i, x, y. split_and!; [done.. |].
    by apply Qltb_lt.
  - intros (i & x & y & Ha & Hb & Hlt). exists i, true. split; [| done].
    rewrite lookup_zip_with, Ha, Hb. simpl. f_equal.
    by apply Qltb_lt.
Qed.

Lemma existsb_is_None {A : Type} (l : list (option A)) :
  existsb (λ x, bool_decide (x = None)) l = true ↔ None ∈ l.
Proof.
  rewrite existsb_lookup, list_elem_of_lookup. split.
  - intros (i & x & Hi & ->%bool_decide_eq_true). eauto.
  - intros [i Hi]. exists i, None. split; [done | by apply bool_decide_eq_true].
Qed.

Lemma any_isna_true (col : Column) : any_isna col = true ↔ column_has_null col.
Proof. destruct col; apply existsb_is_None. Qed.

Lemma result_bind_assoc {A B C : Type} (m : result A) (f : A → result B)
    (g : B → result C) :
  (m ≫= f) ≫= g = m ≫= (λ x, f x ≫= g).
Proof. by destruct m. Qed.

Lemma raises_validation_raise_if (b : bool) (msg : string) (k : result unit) :
  raises_validation (raise_if b msg;; k) ↔ b = true ∨ raises_validation k.
Proof.
  destruct b; simpl.
  - split; [by left | intros _; by eexists].
  - split; [by right | by intros [? | ?]].
Qed.

Lemma valid_outcome_raise_if (b : bool) (msg : string) (k : result unit) :
  valid_outcome k → valid_outcome (raise_if b msg;; k).
Proof. destruct b; simpl; [intros _; right; by eexists | done]. Qed.

Lemma raise_if_alone (b : bool) (msg : string) :
  valid_outcome (raise_if b msg) ∧ (raises_validation (raise_if b msg) ↔ b = true).
Proof.
  destruct b; simpl.
  - split; [right; by eexists | split; [done | intros _; by eexists]].
  - split; [by left | split; [by intros [? ?] | done]].
Qed.

Lemma check_required_columns_spec (df : DataFrame) (required : list string)
    (dataset_name : string) :
  (¬ missing_column df required
   ∧ _check_required_columns df required dataset_name = Ok ())
  ∨ (missing_column df required
     ∧ raises_validation (_check_required_columns df required dataset_name)).
Proof.
  unfold _check_required_columns.
  destruct (List.filter (λ c, bool_decide (df !! c = None)) required)
    as [|c missing] eqn:Hfilter.
  - left. split; [| done].
    intros (c & Hc & Hnone).
    assert (Hin : In c (List.filter (λ c, bool_decide (df !! c = None)) required)).
    { apply filter_In. split; [by apply list_elem_of_In | by apply bool_decide_eq_true]. }
    by rewrite Hfilter in Hin.
  - right. split; [| by eexists].
    assert (Hin : In c (List.filter (λ c, bool_decide (df !! c = None)) required))
      by (rewrite Hfilter; by left).
    apply filter_In in Hin as [Hin Hnone%bool_decide_eq_true].
    exists c. split; [by apply list_elem_of_In | done].
Qed.

Lemma present_numeric (df : DataFrame) (required cols : list string) (c : string) :
  ¬ missing_column df required → numeric_columns df cols →
  c ∈ required → c ∈ cols → ∃ s, df !! c = Some (NumCol s).
Proof.
  intros Hpresent Hnum Hreq Hcol.
  destruct (df !! c) as [col|] eqn:Hc.
  - destruct (Hnum c col Hcol Hc) as [s ->]. eauto.
  - destruct Hpresent. by exists c.
Qed.

Lemma has_negative_numcol (df : DataFrame) (c : string) (s : Series) :
  df !! c = Some (NumCol s) → has_negative df c ↔ any_lt s 0 = true.
Proof.
  intros Hc. rewrite any_lt_true. unfold has_negative. split.
  - intros (s' & i & x & Hs' & Hi & Hx). simplify_eq. eauto.
  - intros (i & x & Hi & Hx). by exists s, i, x.
Qed.

Lemma out_of_range_numcol (df : DataFrame) (c : string) (s : Series) (lo hi : Q) :
  df !! c = Some (NumCol s) →
  out_of_range df c lo hi ↔ any_lt s lo || any_gt s hi = true.
Proof.
  intros Hc. rewrite orb_true_iff, any_lt_true, any_gt_true.
  unfold out_of_range. split.
  - intros (s' & i & x & Hs' & Hi & [Hx | Hx]); simplify_eq; eauto.
  - intros [(i & x & Hi & Hx) | (i & x & Hi & Hx)]; exists s, i, x; eauto.
Qed.

Lemma out_of_range_absent (df : DataFrame) (c : string) (lo hi : Q) :
  df !! c = None → ¬ out_of_range df c lo hi.
Proof. intros Hc (s & i & x & Hs & _). by rewrite Hc in Hs. Qed.

Section ValidatorProperties.
Variable to_datetime : Column → result (list (option Z)).

Lemma check_timestamps_spec (df : DataFrame) (dataset_name : string) (col : Column) :
  df !! "timestamp" = Some col →
  valid_outcome (_check_timestamps to_datetime df dataset_name)
  ∧ (raises_validation (_check_timestamps to_datetime df dataset_name)
     ↔ null_timestamp df ∨ unparseable_timestamp to_datetime df).
Proof.
  intros Hts. unfold _check_timestamps, getcol. rewrite Hts. simpl.
  unfold null_timestamp, unparseable_timestamp.
  destruct (any_isna col) eqn:Hna; simpl.
  - split; [right; by eexists |].
    split; [| intros _; by eexists].
    intros _. left. exists col. split; [done | by apply any_isna_true].
  - assert (Hnonull : ¬ column_has_null col).
    { rewrite <- any_isna_true. by rewrite Hna. }
    destruct (is_datetime64_any_dtype col) eqn:Hdt; simpl.
    + split; [by left |]. split; [by intros [? ?] |].
      intros [(col' & Hcol' & Hnull) | (col' & e & Hcol' & Hdt' & _)];
        simplify_eq; [done | congruence].
    + destruct (to_datetime col) as [parsed | e] eqn:Hparse.
      * split; [by left |]. split; [by intros [? ?] |].
        intros [(col' & Hcol' & Hnull) | (col' & e & Hcol' & _ & Hraise)];
          simplify_eq; [done | congruence].
      * split; [right; by eexists |].
        split; [| intros _; by eexists].
        intros _. right. by exists col, e.
Qed.

Lemma validate_nodepool_data_spec (df : DataFrame) :
  numeric_columns df ["capacity_gpu_count"; "allocatable_gpu_count"] →
  valid_outcome (validate_nodepool_data to_datetime df)
  ∧ (raises_validation (validate_nodepool_data to_datetime df)
     ↔ violates_nodepool to_datetime df).
Proof.
  intros Hnum. unfold validate_nodepool_data, violates_nodepool.
  fold nodepool_required.
  destruct (check_required_columns_spec df nodepool_required "nodepool_state")
    as [[Hpresent ->] | [Hmissing [msg ->]]]; simpl.
  2:{ split; [right; by eexists |]. split; [by left | intros _; by eexists]. }
  destruct (present_numeric df nodepool_required _ "capacity_gpu_count"
              Hpresent Hnum) as [capacity Hcap]; [set_solver.. |].
  destruct (present_numeric df nodepool_required _ "allocatable_gpu_count"
              Hpresent Hnum) as [allocatable Halloc]; [set_solver.. |].
  assert (∃ ts, df !! "timestamp" = Some ts) as [ts Hts].
  { destruct (df !! "timestamp") eqn:Hts; [eauto |].
    destruct Hpresent. exists "timestamp". split; [set_solver | done]. }
  destruct (check_timestamps_spec df "nodepool_state" ts Hts) as [Hout Hiff].
  rewrite !(getnum_lookup _ _ _ Hcap), !(getnum_lookup _ _ _ Halloc). simpl.
  split.
  - by repeat apply valid_outcome_raise_if.
  - rewrite !raises_validation_raise_if, Hiff.
    rewrite (has_negative_numcol _ _ _ Hcap), (has_negative_numcol _ _ _ Halloc).
    assert (Hexceeds : allocatable_exceeds_capacity df
                       ↔ any_exceeds allocatable capacity = true).
    { rewrite any_exceeds_true. unfold allocatable_exceeds_capacity. split.
      - intros (a & c & i & x & y & Ha & Hc & Hx & Hy & Hlt).
        rewrite Halloc in Ha. rewrite Hcap in Hc.
        injection Ha as <-. injection Hc as <-. by exists i, x, y.
      - intros (i & x & y & Hx & Hy & Hlt).
        by exists allocatable, capacity, i, x, y. }
    rewrite Hexceeds. tauto.
Qed.

Lemma validate_kueue_data_spec (df : DataFrame) :
  numeric_columns df
    [ "pending_workloads"; "admitted_active_workloads"; "resource_usage";
      "admission_wait_time_seconds" ] →
  valid_outcome (validate_kueue_data to_datetime df)
  ∧ (raises_validation (validate_kueue_data to_datetime df)
     ↔ violates_kueue to_datetime df).
Proof.
  intros Hnum. unfold validate_kueue_data, violates_kueue.
  fold kueue_required.
  destruct (check_required_columns_spec df kueue_required "kueue_metrics")
    as [[Hpresent ->] | [Hmissing [msg ->]]]; simpl.
  2:{ split; [right; by eexists |]. split; [by left | intros _; by eexists]. }
  destruct (present_numeric df kueue_required _ "pending_workloads"
              Hpresent Hnum) as [pending Hpending]; [set_solver.. |].
  destruct (present_numeric df kueue_required _ "admitted_active_workloads"
              Hpresent Hnum) as [admitted Hadmitted]; [set_solver.. |].
  destruct (present_numeric df kueue_required _ "resource_usage"
              Hpresent Hnum) as [usage Husage]; [set_solver.. |].
  destruct (present_numeric df kueue_required _ "admission_wait_time_seconds"
              Hpresent Hnum) as [wait Hwait]; [set_solver.. |].
  assert (∃ ts, df !! "timestamp" = Some ts) as [ts Hts].
  { destruct (df !! "timestamp") eqn:Hts; [eauto |].
    destruct Hpresent. exists "timestamp". split; [set_solver | done]. }
  destruct (check_timestamps_spec df "kueue_metrics" ts Hts) as [Hout Hiff].
  rewrite !(getnum_lookup _ _ _ Hpending), !(getnum_lookup _ _ _ Hadmitted),
    !(getnum_lookup _ _ _ Husage), !(getnum_lookup _ _ _ Hwait). simpl.
  rewrite !result_bind_assoc. simpl.
  split.
  - by repeat apply valid_outcome_raise_if.
  - rewrite !raises_validation_raise_if, Hiff.
    rewrite (has_negative_numcol _ _ _ Hpending),
      (has_negative_numcol _ _ _ Hadmitted),
      (has_negative_numcol _ _ _ Husage), (has_negative_numcol _ _ _ Hwait).
    tauto.
Qed.

Lemma validate_dcgm_data_spec (df : DataFrame) :
  numeric_columns df
    [ "gpu_utilization_pct"; "tensor_active_pct"; "power_usage_watts";
      "memory_used_mb"; "memory_free_mb"; "gpu_temp_celsius" ] →
  valid_outcome (validate_dcgm_data to_datetime df)
  ∧ (raises_validation (validate_dcgm_data to_datetime df)
     ↔ violates_dcgm to_datetime df).
Proof.
  intros Hnum. unfold validate_dcgm_data, violates_dcgm.
  fold dcgm_required.
  destruct (check_required_columns_spec df dcgm_required "dcgm_metrics")
    as [[Hpresent ->] | [Hmissing [msg ->]]]; simpl.
  2:{ split; [right; by eexists |]. split; [by left | intros _; by eexists]. }
  destruct (present_numeric df dcgm_required _ "gpu_utilization_pct"
              Hpresent Hnum) as [util Hutil]; [set_solver.. |].
  destruct (present_numeric df dcgm_required _ "power_usage_watts"
              Hpresent Hnum) as [power Hpower]; [set_solver.. |].
  destruct (present_numeric df dcgm_required _ "memory_used_mb"
              Hpresent Hnum) as [used Hused]; [set_solver.. |].
  destruct (present_numeric df dcgm_required _ "memory_free_mb"
              Hpresent Hnum) as [free Hfree]; [set_solver.. |].
  destruct (present_numeric df dcgm_required _ "gpu_temp_celsius"
              Hpresent Hnum) as [temp Htemp]; [set_solver.. |].
  assert (∃ ts, df !! "timestamp" = Some ts) as [ts Hts].
  { destruct (df !! "timestamp") eqn:Hts; [eauto |].
    destruct Hpresent. exists "timestamp". split; [set_solver | done]. }
  destruct (check_timestamps_spec df "dcgm_metrics" ts Hts) as [Hout Hiff].
  rewrite !(getnum_lookup _ _ _ Hutil), !(getnum_lookup _ _ _ Hpower),
    !(getnum_lookup _ _ _ Hused), !(getnum_lookup _ _ _ Hfree),
    !(getnum_lookup _ _ _ Htemp). simpl.
  rewrite (out_of_range_numcol _ _ _ _ _ Hutil),
    (out_of_range_numcol _ _ _ _ _ Htemp),
    (has_negative_numcol _ _ _ Hpower), (has_negative_numcol _ _ _ Hused),
    (has_negative_numcol _ _ _ Hfree).
  destruct (df !! "tensor_active_pct") as [tcol|] eqn:Htensor.
  - destruct (Hnum "tensor_active_pct" tcol) as [tensor ->]; [set_solver | done |].
    rewrite bool_decide_eq_true_2 by eauto.
    rewrite (getnum_lookup _ _ _ Htensor). simpl.
    rewrite (out_of_range_numcol _ _ _ _ _ Htensor).
    split.
    + by repeat apply valid_outcome_raise_if.
    + rewrite !raises_validation_raise_if, Hiff. tauto.
  - rewrite bool_decide_eq_false_2 by (by intros [? ?]). simpl.
    pose proof (out_of_range_absent df "tensor_active_pct" 0 100 Htensor).
    split.
    + by repeat apply valid_outcome_raise_if.
    + rewrite !raises_validation_raise_if, Hiff. tauto.
Qed.

(** The run of [generate_synthetic_data] when a validator raises: the
    exception is the outcome, and the file system is as it was. *)
Lemma generate_synthetic_data_fail_fast
    {Config Manifest : Type}
    (get_scenario_config : string → result Config)
    (generate_tables : Config → Z → Z → Z → DataFrame * DataFrame * DataFrame)
    (make_manifest : string → Z → Z → Z → DataFrame * DataFrame * DataFrame
                     → Manifest)
    (scenario : string) (seed days samples_per_hour : Z) (output_dir : string)
    (fs : gmap string (file (Manifest := Manifest)))
    (scenario_config : Config) (nodepool_df kueue_df dcgm_df : DataFrame) :
  get_scenario_config scenario = Ok scenario_config →
  generate_tables scenario_config seed days samples_per_hour
  = (nodepool_df, kueue_df, dcgm_df) →
  raises_validation (validate_nodepool_data to_datetime nodepool_df)
  ∨ raises_validation (validate_kueue_data to_datetime kueue_df)
  ∨ raises_validation (validate_dcgm_data to_datetime dcgm_df) →
  valid_outcome (validate_nodepool_data to_datetime nodepool_df) →
  valid_outcome (validate_kueue_data to_datetime kueue_df) →
  ∃ msg,
    generate_synthetic_data to_datetime get_scenario_config generate_tables
      make_manifest scenario seed days samples_per_hour output_dir fs
    = (Raise (ValidationError msg), fs).
Proof.
  intros Hcfg Htables Hraise Hnode Hkueue.
  unfold generate_synthetic_data. rewrite Hcfg, Htables.
  destruct Hnode as [Hn | [msg Hn]]; rewrite Hn in *; [| by exists msg].
  destruct Hkueue as [Hk | [msg Hk]]; rewrite Hk in *; [| by exists msg].
  destruct Hraise as [[? ?] | [[? ?] | [msg Hd]]];
    [discriminate.. | rewrite Hd; by exists msg].
Qed.
End ValidatorProperties.

(** ** Validation: what raises, and what a raise leaves behind *)

Ltac solve_numeric_columns :=
  let c := fresh "c" in let col := fresh "col" in
  let Hc := fresh "Hc" in let Hcol := fresh "Hcol" in
  intros c col Hc Hcol;
  repeat (apply elem_of_cons in Hc as [-> | Hc];
          [vm_compute in Hcol; first [discriminate | injection Hcol as <-; by eexists] |]);
  by apply elem_of_nil in Hc.

(** C9, as the specification states it, on one sample of telemetry whose
    power is negative: the validator raises a [ValidationError], and the
    table has none of the violations that section 7 lists. *)
Lemma validate_dcgm_data_negative_power :
  validate_dcgm_data no_parser negative_power_dcgm
  = Raise (ValidationError "dcgm_metrics: power_usage_watts contains negative values")
  ∧ ¬ listed_violation_dcgm no_parser negative_power_dcgm.
Proof.
  split; [by vm_compute |].
  assert (Hutil : negative_power_dcgm !! "gpu_utilization_pct" = Some (NumCol [fin 50]))
    by by vm_compute.
  assert (Htemp : negative_power_dcgm !! "gpu_temp_celsius" = Some (NumCol [fin 50]))
    by by vm_compute.
  assert (Htensor : negative_power_dcgm !! "tensor_active_pct" = None)
    by by vm_compute.
  assert (Hts : negative_power_dcgm !! "timestamp" = Some (TimeCol [Some 1768867200%Z]))
    by by vm_compute.
  unfold listed_violation_dcgm.
  rewrite (out_of_range_numcol _ _ _ _ _ Hutil), (out_of_range_numcol _ _ _ _ _ Htemp).
  intros [(c & Hc & Hnone) | [Hb | [Hrange | [Hb | [Hnull | Hparse]]]]].
  - unfold dcgm_required in Hc.
    repeat (apply elem_of_cons in Hc as [-> | Hc]; [by vm_compute in Hnone |]).
    by apply elem_of_nil in Hc.
  - by vm_compute in Hb.
  - exact (out_of_range_absent _ _ _ _ Htensor Hrange).
  - by vm_compute in Hb.
  - destruct Hnull as (col & Hcol & Hnull). rewrite Hts in Hcol.
    injection Hcol as <-. apply any_isna_true in Hnull. by vm_compute in Hnull.
  - destruct Hparse as (col & e & Hcol & Hdt & _). rewrite Hts in Hcol.
    injection Hcol as <-. by vm_compute in Hdt.
Qed.

(** C9, amended.  On tables whose measurement columns are numeric, each
    validator either returns or raises a [ValidationError], and it raises
    exactly when the table violates one of its checks: a missing required
    column, a negative count or wait time, a negative power or memory
    value, a utilization or a percentage outside [0, 100], a temperature
    outside [0, 120], allocatable above capacity, a null timestamp, an
    unparseable timestamp.  When a generated table violates a check,
    [generate_synthetic_data] ends with the [ValidationError]: it returns
    no table and leaves the file system as it was. *)
Theorem validators_raise_iff_violation
    (to_datetime : Column → result (list (option Z)))
    (nodepool_df kueue_df dcgm_df : DataFrame) :
  numeric_columns nodepool_df ["capacity_gpu_count"; "allocatable_gpu_count"] →
  numeric_columns kueue_df
    [ "pending_workloads"; "admitted_active_workloads"; "resource_usage";
      "admission_wait_time_seconds" ] →
  numeric_columns dcgm_df
    [ "gpu_utilization_pct"; "tensor_active_pct"; "power_usage_watts";
      "memory_used_mb"; "memory_free_mb"; "gpu_temp_celsius" ] →
  (valid_outcome (validate_nodepool_data to_datetime nodepool_df)
   ∧ (raises_validation (validate_nodepool_data to_datetime nodepool_df)
      ↔ violates_nodepool to_datetime nodepool_df))
  ∧ (valid_outcome (validate_kueue_data to_datetime kueue_df)
     ∧ (raises_validation (validate_kueue_data to_datetime kueue_df)
        ↔ violates_kueue to_datetime kueue_df))
  ∧ (valid_outcome (validate_dcgm_data to_datetime dcgm_df)
     ∧ (raises_validation (validate_dcgm_data to_datetime dcgm_df)
        ↔ violates_dcgm to_datetime dcgm_df))
  ∧ (∀ (Config Manifest : Type)
       (get_scenario_config : string → result Config)
       (generate_tables : Config → Z → Z → Z → DataFrame * DataFrame * DataFrame)
       (make_manifest : string → Z → Z → Z → DataFrame * DataFrame * DataFrame
                        → Manifest)
       (scenario : string) (seed days samples_per_hour : Z) (output_dir : string)
       (fs : gmap string (file (Manifest := Manifest))) (scenario_config : Config),
       get_scenario_config scenario = Ok scenario_config →
       generate_tables scenario_config seed days samples_per_hour
       = (nodepool_df, kueue_df, dcgm_df) →
       violates_nodepool to_datetime nodepool_df
       ∨ violates_kueue to_datetime kueue_df
       ∨ violates_dcgm to_datetime dcgm_df →
       ∃ msg,
         generate_synthetic_data to_datetime get_scenario_config generate_tables
           make_manifest scenario seed days samples_per_hour output_dir fs
         = (Raise (ValidationError msg), fs)).
Proof.
  intros Hnode Hkueue Hdcgm.
  destruct (validate_nodepool_data_spec to_datetime nodepool_df Hnode) as [Hn1 Hn2].
  destruct (validate_kueue_data_spec to_datetime kueue_df Hkueue) as [Hk1 Hk2].
  destruct (validate_dcgm_data_spec to_datetime dcgm_df Hdcgm) as [Hd1 Hd2].
  split_and!; [done.. |].
  intros Config Manifest get_scenario_config generate_tables make_manifest
    scenario seed days samples_per_hour output_dir fs scenario_config
    Hcfg Htables Hviolates.
  eapply generate_synthetic_data_fail_fast; [done.. | | done | done].
  rewrite Hn2, Hk2, Hd2. exact Hviolates.
Qed.

Lemma validators_raise_iff_violation_witness :
  (valid_outcome (validate_nodepool_data no_parser sample_nodepool)
   ∧ (raises_validation (validate_nodepool_data no_parser sample_nodepool)
      ↔ violates_nodepool no_parser sample_nodepool))
  ∧ (valid_outcome (validate_kueue_data no_parser sample_kueue)
     ∧ (raises_validation (validate_kueue_data no_parser sample_kueue)
        ↔ violates_kueue no_parser sample_kueue))
  ∧ (valid_outcome (validate_dcgm_data no_parser negative_power_dcgm)
     ∧ (raises_validation (validate_dcgm_data no_parser negative_power_dcgm)
        ↔ violates_dcgm no_parser negative_power_dcgm))
  ∧ validate_nodepool_data no_parser sample_nodepool = Ok ()
  ∧ validate_kueue_data no_parser sample_kueue = Ok ().
Proof.
  destruct (validators_raise_iff_violation no_parser
              sample_nodepool sample_kueue negative_power_dcgm)
    as (Hnode & Hkueue & Hdcgm & _); [solve_numeric_columns.. |].
  refine (conj Hnode (conj Hkueue (conj Hdcgm (conj _ _)))); by vm_compute.
Defined.

(** ** The join of demand, capacity and efficiency *)

(** C3, on one hour of data in which group b has capacity and neither
    demand nor telemetry.  [build_unified_model] fills the four demand
    columns of the row of b with 0 and leaves its efficiency columns
    missing, as the claim says.  [calculate_all_imbalance_metrics] makes
    the same join and has no [fillna]: the four demand columns of the
    row of b are missing, not 0, and so is everything computed from
    them. *)
Theorem calculate_all_imbalance_metrics_demand_not_filled :
  (t ← calculate_all_imbalance_metrics demand_in_a telemetry_in_a capacity_in_a_and_b
         "timestamp_hour" "nodegroup";
   mapM (getcol t)
     [ "nodegroup"; "pending_workloads"; "admission_wait_time_seconds";
       "admitted_active_workloads"; "resource_usage";
       "gpu_utilization_pct"; "efficiency_gap"; "demand_capacity_ratio" ])
  = Ok [ StrCol [Some "a"; Some "b"];
         NumCol [fin 3; NaN]; NumCol [fin 10; NaN];
         NumCol [fin 1; NaN]; NumCol [fin 2; NaN];
         NumCol [fin 80; NaN]; NumCol [fin 30; NaN];
         NumCol [fin (3000000 # 6000001); NaN] ]
  ∧ (t ← build_unified_model no_parser demand_in_a telemetry_in_a capacity_in_a_and_b
           "timestamp_hour" "nodegroup";
     mapM (getcol t)
       [ "nodegroup"; "pending_workloads"; "admission_wait_time_seconds";
         "admitted_active_workloads"; "resource_usage";
         "gpu_utilization_pct"; "efficiency_gap" ])
    = Ok [ StrCol [Some "a"; Some "b"];
           NumCol [fin 3; fin 0]; NumCol [fin 10; fin 0];
           NumCol [fin 1; fin 0]; NumCol [fin 2; fin 0];
           NumCol [fin 80; NaN]; NumCol [fin 30; NaN] ].
Proof. split; by vm_compute. Qed.

(** * Further properties of the calculators *)

Lemma series_binop_lookup_strict (f : num → num → num) (a b : Series) (i : nat) :
  (∀ y, f NaN y = NaN) → (∀ x, f x NaN = NaN) →
  (i < length a `max` length b)%nat →
  series_binop f a b !! i = Some (f (value_at a i) (value_at b i)).
Proof.
  intros Hl Hr. unfold value_at. revert b i.
  induction a as [|x a IH]; intros b i Hi.
  - change (series_binop f [] b) with ((λ _ : num, NaN) <$> b).
    rewrite list_lookup_fmap. simpl in Hi.
    destruct (lookup_lt_is_Some_2 b i Hi) as [y ->]. simpl. by rewrite Hl.
  - destruct b as [|y b].
    + change (series_binop f (x :: a) []) with ((λ _ : num, NaN) <$> (x :: a)).
      rewrite list_lookup_fmap.
      assert (Hi' : (i < length (x :: a))%nat) by (simpl in *; lia).
      destruct (lookup_lt_is_Some_2 (x :: a) i Hi') as [x' ->]. simpl.
      by rewrite Hr.
    + destruct i as [|i]; simpl; [done |].
      apply IH. simpl in Hi. lia.
Qed.

Lemma clip_lookup_bounds (lo hi : Q) (s : Series) (i : nat) (x : Q) :
  lo <= hi → clip lo hi s !! i = Some (fin x) → lo <= x ∧ x <= hi.
Proof.
  intros Hlohi. unfold clip. rewrite list_lookup_fmap.
  destruct (s !! i) as [[y|]|]; simpl; [| done..].
  intros [= <-]. split.
  - apply Q.min_glb; [apply Q.le_max_r | done].
  - apply Q.le_min_r.
Qed.

(** PIF is a fraction: every value that [calculate_power_intensity_factor]
    gives is between 0 and 1, whatever the power reading and the model. *)
Theorem power_intensity_factor_in_unit_interval
    (df : DataFrame) (power_col model_col : string) (pif : Series) (i : nat) (x : Q) :
  calculate_power_intensity_factor df power_col model_col = Ok pif →
  pif !! i = Some (fin x) →
  0 <= x ∧ x <= 1.
Proof.
  unfold calculate_power_intensity_factor, calculate_power_intensity_factor_with.
  destruct (getcol df model_col) as [models|]; [| done]. simpl.
  destruct (getnum df power_col) as [power|]; [| done]. simpl.
  intros [= <-] Hi. by apply clip_lookup_bounds in Hi.
Qed.

Lemma power_intensity_factor_in_unit_interval_witness :
  ∃ x : Q,
    calculate_power_intensity_factor (one_gpu "NVIDIA A100-SXM4-40GB" 500)
      "power_usage_watts" "gpu_model" = Ok [fin x]
    ∧ 0 <= x ∧ x <= 1.
Proof.
  eexists. split; [by vm_compute |].
  eapply (power_intensity_factor_in_unit_interval
            (one_gpu "NVIDIA A100-SXM4-40GB" 500) "power_usage_watts" "gpu_model" _ 0%nat);
    by vm_compute.
Defined.




(** Memory pressure of readings that are not negative (the validator
    rejects negative ones) is a percentage at every position, never NaN:
    [fillna(0)] turns the undefined 0/0 of a GPU that reports no memory,
    and every missing reading, into 0. *)
Theorem memory_pressure_defined_and_bounded (used_mb free_mb : Series) (i : nat) :
  (i < length used_mb `max` length free_mb)%nat →
  (∀ u : Q, used_mb !! i = Some (fin u) → 0 <= u) →
  (∀ f : Q, free_mb !! i = Some (fin f) → 0 <= f) →
  ∃ x : Q,
    calculate_memory_pressure used_mb free_mb !! i = Some (fin x)
    ∧ 0 <= x ∧ x <= 100
    ∧ (value_at used_mb i = NaN ∨ value_at free_mb i = NaN → x == 0)
    ∧ (∀ u f : Q,
         used_mb !! i = Some (fin u) → free_mb !! i = Some (fin f) →
         (u + f == 0 → x == 0)
         ∧ (0 < u + f → x == u / (u + f) * 100)).
Proof.
  intros Hi Hused Hfree. unfold calculate_memory_pressure, fillna, series_scalar.
  rewrite !list_lookup_fmap.
  assert (Hi' : (i < length used_mb
                     `max` length (series_binop nadd used_mb free_mb))%nat)
    by (rewrite length_series_binop; lia).
  rewrite (series_binop_lookup_strict ndiv) by (done || by intros []).
  unfold value_at at 2.
  rewrite (series_binop_lookup_strict nadd) by (done || by intros []).
  unfold value_at.
  destruct (used_mb !! i) as [[u|]|] eqn:Hu, (free_mb !! i) as [[f|]|] eqn:Hf;
    simpl;
    try (exists 0; split_and!; [done | lra | lra | done | by intros u' f' ? ?]).
  specialize (Hused u eq_refl). specialize (Hfree f eq_refl).
  destruct (Qeq_bool (u + f) 0) eqn:Hz; simpl.
  - apply Qeq_bool_iff in Hz.
    exists 0. split_and!; [done | lra | lra | by intros [? | ?] |].
    intros u' f' [= <-] [= <-]. split; [done | lra].
  - apply Qeq_bool_false in Hz.
    assert (Hpos : 0 < u + f) by lra.
    assert (Hfrac : u / (u + f) * (u + f) == u) by (field; lra).
    assert (Hlo : 0 <= u / (u + f)) by (apply Qle_shift_div_l; lra).
    assert (Hhi : u / (u + f) <= 1) by (apply Qle_shift_div_r; lra).
    eexists. split_and!; [done | lra | lra | by intros [? | ?] |].
    intros u' f' [= <-] [= <-]. split; [intros Hzero; lra | done].
Qed.

Lemma memory_pressure_defined_and_bounded_witness :
  ∃ x : Q,
    calculate_memory_pressure [fin 10; fin 0] [fin 30; fin 0] !! 0%nat = Some (fin x)
    ∧ 0 <= x ∧ x <= 100
    ∧ (value_at [fin 10; fin 0] 0 = NaN ∨ value_at [fin 30; fin 0] 0 = NaN → x == 0)
    ∧ (∀ u f : Q,
         [fin 10; fin 0] !! 0%nat = Some (fin u) →
         [fin 30; fin 0] !! 0%nat = Some (fin f) →
         (u + f == 0 → x == 0)
         ∧ (0 < u + f → x == u / (u + f) * 100)).
Proof.
  apply (memory_pressure_defined_and_bounded [fin 10; fin 0] [fin 30; fin 0] 0).
  - simpl. lia.
  - intros u [= <-]. by vm_compute.
  - intros f [= <-]. by vm_compute.
Defined.

(** ** The regions of the efficiency classes *)

Ltac reflect_comparisons :=
  repeat match goal with
         | H : Qltb _ _ = true |- _ => apply Qltb_lt in H
         | H : Qltb _ _ = false |- _ =>
             apply not_true_iff_false in H; rewrite Qltb_lt in H
         | H : Qle_bool _ _ = true |- _ => apply Qle_bool_iff in H
         | H : Qle_bool _ _ = false |- _ =>
             apply not_true_iff_false in H; rewrite Qle_bool_iff in H
         end.

(** The classes as regions of the (utilization, PIF) plane.  Idle is a
    utilization under 10, Efficient a utilization of 70 or more with a
    PIF of 0.75 or more, Bottlenecked a utilization of 70 or more with a
    PIF under 0.60.  Under 70 % utilization, Moderate is a utilization of
    40 or more with a PIF of 0.50 or more, and Inefficient is the rest
    from 10 on.  A missing utilization is Inefficient; with a missing PIF
    a utilization of 10 or more is Inefficient. *)
Theorem efficiency_class_regions (u p : Q) :
  (classify_row (fin u) (fin p) = "Idle" ↔ u < 10)
  ∧ (classify_row (fin u) (fin p) = "Efficient" ↔ 70 <= u ∧ 0.75 <= p)
  ∧ (classify_row (fin u) (fin p) = "Bottlenecked" ↔ 70 <= u ∧ p < 0.60)
  ∧ (u < 70 →
     (classify_row (fin u) (fin p) = "Moderate" ↔ 40 <= u ∧ 0.50 <= p))
  ∧ (u < 70 →
     (classify_row (fin u) (fin p) = "Inefficient"
      ↔ 10 <= u ∧ (u < 40 ∨ p < 0.50)))
  ∧ classify_row NaN (fin p) = "Inefficient"
  ∧ (classify_row (fin u) NaN = "Idle" ↔ u < 10)
  ∧ (classify_row (fin u) NaN = "Inefficient" ↔ 10 <= u).
Proof.
  unfold classify_row, nlt, nge, nle, cmp2, fin.
  destruct (Qltb u 10) eqn:H10, (Qle_bool 70 u) eqn:H70, (Qle_bool 40 u) eqn:H40,
    (Qle_bool 0.75 p) eqn:H75, (Qltb p 0.60) eqn:H60, (Qle_bool 0.50 p) eqn:H50;
    simpl; reflect_comparisons; split_and!;
    lazymatch goal with
    | |- _ ↔ _ =>
        split; intros Hside;
        first [ discriminate Hside | reflexivity | lra | exfalso; lra ]
    | |- _ → _ =>
        intros Hbelow; split; intros Hside;
        first [ discriminate Hside | reflexivity | lra | exfalso; lra ]
    | |- _ => reflexivity
    end.
Qed.

(** * Further properties of the imbalance scores *)

(** Severity never goes down when a signal goes up: a larger composite
    score or a larger demand-capacity ratio gives the same label or a
    more severe one. *)
Theorem severity_monotone (c c' d d' : Q) :
  c <= c' → d <= d' →
  (severity_rank (classify (fin c) (fin d))
   ≤ severity_rank (classify (fin c') (fin d')))%nat.
Proof.
  intros Hc Hd. unfold classify, ngt, nlt, cmp2, fin.
  destruct (Qltb 0.7 c) eqn:H1, (Qltb 2.0 d) eqn:H2, (Qltb 0.5 c) eqn:H3,
    (Qltb 1.0 d) eqn:H4, (Qltb 0.3 c) eqn:H5; simpl; reflect_comparisons;
    destruct (Qltb 0.7 c') eqn:H1', (Qltb 2.0 d') eqn:H2', (Qltb 0.5 c') eqn:H3',
      (Qltb 1.0 d') eqn:H4', (Qltb 0.3 c') eqn:H5'; simpl; reflect_comparisons;
    first [ by vm_compute; lia | exfalso; lra ].
Qed.

Lemma severity_monotone_witness :
  (severity_rank (classify (fin 0.2) (fin 0.3))
   ≤ severity_rank (classify (fin 0.2) (fin 2.5)))%nat.
Proof. apply severity_monotone; by vm_compute. Defined.

Lemma normalize_series_lookup_NaN (s norm : Series) (i : nat) :
  normalize_series s "minmax" None = Ok norm →
  s !! i = Some NaN → norm !! i = Some NaN.
Proof.
  rewrite normalize_series_minmax_global. intros [= <-] Hi.
  unfold series_scalar. by rewrite !list_lookup_fmap, Hi.
Qed.

(** A group without GPU telemetry has no composite score, and its
    severity comes from the demand-capacity ratio alone: where the
    efficiency gap is missing, [calculate_composite_imbalance_score] gives
    NaN and [classify_imbalance_severity] gives Critical above 2, Warning
    above 1 and Healthy otherwise, never Moderate. *)
Theorem missing_gap_severity_from_ratio_alone
    (dcr efficiency_gap qps cis : Series) (labels : list string)
    (dcr_weight gap_weight qps_weight : Q) (i : nat) (d : Q) :
  calculate_composite_imbalance_score dcr efficiency_gap qps
    dcr_weight gap_weight qps_weight = Ok cis →
  classify_imbalance_severity cis dcr = Ok labels →
  efficiency_gap !! i = Some NaN →
  dcr !! i = Some (fin d) →
  cis !! i = Some NaN
  ∧ ∃ label, labels !! i = Some label
             ∧ (2 < d → label = "Critical")
             ∧ (1 < d → d <= 2 → label = "Warning")
             ∧ (d <= 1 → label = "Healthy").
Proof.
  intros Hcis Hlabels Hgap Hdcr.
  unfold calculate_composite_imbalance_score in Hcis.
  destruct (normalize_series dcr "minmax" None) as [norm_dcr|] eqn:Hnd;
    [| by rewrite normalize_series_minmax_global in Hnd].
  destruct (normalize_series (clip_lower 0 efficiency_gap) "minmax" None)
    as [norm_gap|] eqn:Hng; [| by rewrite normalize_series_minmax_global in Hng].
  simpl in Hcis. injection Hcis as <-.
  assert (Hclip : clip_lower 0 efficiency_gap !! i = Some NaN)
    by (unfold clip_lower; by rewrite list_lookup_fmap, Hgap).
  pose proof (normalize_series_lookup_NaN _ _ _ Hng Hclip) as Hng_i.
  destruct (normalize_series_lookup dcr i d Hdcr)
    as (norm' & mn & mx & v & Hnorm' & _ & _ & Hv & _).
  rewrite Hnd in Hnorm'. injection Hnorm' as <-.
  assert (Hsum : series_binop nadd (scalar_mul dcr_weight norm_dcr)
                   (scalar_mul gap_weight norm_gap) !! i = Some NaN).
  { rewrite (series_binop_lookup nadd _ _ i (fin dcr_weight * fin v)%num NaN).
    - reflexivity.
    - unfold scalar_mul. by rewrite list_lookup_fmap, Hv.
    - unfold scalar_mul. by rewrite list_lookup_fmap, Hng_i. }
  assert (Hcis_i :
    series_binop nadd
      (series_binop nadd (scalar_mul dcr_weight norm_dcr)
                         (scalar_mul gap_weight norm_gap))
      (scalar_mul qps_weight qps) !! i = Some NaN).
  { rewrite (series_binop_lookup_strict nadd).
    - unfold value_at at 1. by rewrite Hsum.
    - done.
    - by intros [].
    - apply lookup_lt_Some in Hsum. lia. }
  split; [exact Hcis_i |].
  unfold classify_imbalance_severity in Hlabels.
  case_decide; [| done]. injection Hlabels as <-.
  eexists. split.
  - by rewrite lookup_zip_with, Hcis_i, Hdcr.
  - unfold classify, ngt, nlt, cmp2, fin. simpl.
    destruct (Qltb 2.0 d) eqn:H2, (Qltb 1.0 d) eqn:H1; reflect_comparisons;
      split_and!; intros; first [ reflexivity | exfalso; lra ].
Qed.

Lemma missing_gap_severity_from_ratio_alone_witness :
  ∃ (cis : Series) (labels : list string),
    calculate_composite_imbalance_score [fin 0.5; fin 1.5] [fin 20; NaN] [fin 0.4; fin 0.9]
      default_dcr_weight default_gap_weight default_qps_weight = Ok cis
    ∧ classify_imbalance_severity cis [fin 0.5; fin 1.5] = Ok labels
    ∧ cis !! 1%nat = Some NaN
    ∧ ∃ label, labels !! 1%nat = Some label
               ∧ (2 < 1.5 → label = "Critical")
               ∧ (1 < 1.5 → 1.5 <= 2 → label = "Warning")
               ∧ (1.5 <= 1 → label = "Healthy").
Proof.
  eexists _, _. split; [reflexivity |]. split; [reflexivity |].
  eapply (missing_gap_severity_from_ratio_alone
            [fin 0.5; fin 1.5] [fin 20; NaN] [fin 0.4; fin 0.9]);
    reflexivity.
Defined.



(** * Further properties of [normalize_series] *)

Lemma rolling_window_self (w : nat) (s : Series) (i : nat) (e : num) :
  (0 < w)%nat → s !! i = Some e → e ∈ rolling_window w s i.
Proof.
  intros Hw Hi. unfold rolling_window. apply list_elem_of_lookup.
  exists (i - (S i - w))%nat. rewrite lookup_drop, lookup_take_lt by lia.
  rewrite <- Hi. f_equal. lia.
Qed.

Lemma drop_take_single {A} (l : list A) (i : nat) (e : A) :
  l !! i = Some e → drop i (take (S i) l) = [e].
Proof.
  revert i. induction l as [|x l IH]; intros [|i] Hi; simplify_eq/=.
  - by rewrite take_0.
  - by apply IH.
Qed.

Lemma rolling_window_single (w : nat) (s : Series) (i : nat) (e : num) :
  (0 < w)%nat → i = 0%nat ∨ w = 1%nat → s !! i = Some e →
  rolling_window w s i = [e].
Proof.
  intros Hw [-> | ->] Hi; unfold rolling_window.
  - replace (1 - w)%nat with 0%nat by lia. exact (drop_take_single s 0 e Hi).
  - replace (S i - 1)%nat with i by lia. by apply drop_take_single.
Qed.

Lemma normalize_rolling_lookup (s : Series) (w : Z) (i : nat) (e : num) :
  (0 < w)%Z → s !! i = Some e →
  ∃ norm, normalize_series s "minmax" (Some w) = Ok norm
    ∧ length norm = length s
    ∧ norm !! i
      = Some ((e - series_min (rolling_window (Z.to_nat w) s i))
              / (if is_zero (series_max (rolling_window (Z.to_nat w) s i)
                             - series_min (rolling_window (Z.to_nat w) s i))
                 then fin 1
                 else (series_max (rolling_window (Z.to_nat w) s i)
                       - series_min (rolling_window (Z.to_nat w) s i))))%num.
Proof.
  intros Hw Hi. rewrite normalize_series_minmax_rolling by done.
  eexists. split; [reflexivity |]. split.
  { rewrite !length_series_binop, length_fmap, !length_series_binop,
      !length_rolling. lia. }
  pose proof (lookup_lt_Some _ _ _ Hi) as Hlt.
  erewrite series_binop_lookup; [reflexivity | |].
  - erewrite series_binop_lookup; [reflexivity | done | by apply rolling_lookup].
  - rewrite list_lookup_fmap.
    erewrite series_binop_lookup; [| by apply rolling_lookup..]. reflexivity.
Qed.



(** What [normalize_series] returns and when it raises.  It raises only a
    [ValueError], for a method that is neither minmax nor percentile or
    for a negative rolling window; a window of 0 is the global scaling.
    A result has the length of the input and is missing exactly where
    the input is missing. *)
Theorem normalize_series_outcome (s : Series) (method : string) (window : option Z) :
  match normalize_series s method window with
  | Ok norm =>
      (method = "minmax" ∨ method = "percentile")
      ∧ length norm = length s
      ∧ ∀ i, norm !! i = Some NaN ↔ s !! i = Some NaN
  | Raise e =>
      ∃ msg, e = ValueError msg
             ∧ ((method ≠ "minmax" ∧ method ≠ "percentile")
                ∨ (method = "minmax" ∧ ∃ w, window = Some w ∧ (w < 0)%Z))
  end.
Proof.
  destruct (decide (method = "minmax")) as [-> | Hmm].
  - destruct (truthy window) eqn:Ht.
    + destruct window as [w|]; [| done].
      destruct (decide (w < 0)%Z) as [Hneg | Hpos].
      * unfold normalize_series. rewrite Ht. simpl.
        destruct (decide (w < 0)%Z); [| done].
        eexists. split; [done |]. right. eauto.
      * assert (Hw : (0 < w)%Z).
        { unfold truthy in Ht. apply negb_true_iff, Z.eqb_neq in Ht. lia. }
        rewrite normalize_series_minmax_rolling by done.
        split; [by left |]. split.
        { rewrite !length_series_binop, length_fmap, !length_series_binop,
            !length_rolling. lia. }
        intros i. destruct (s !! i) as [e|] eqn:Hi.
        -- destruct (normalize_rolling_lookup s w i e Hw Hi)
             as (norm & Hnorm & _ & Hlook).
           rewrite normalize_series_minmax_rolling in Hnorm by done.
           injection Hnorm as <-. rewrite Hlook. destruct e as [x|]; [| done].
           assert (Hx : x ∈ present (rolling_window (Z.to_nat w) s i)).
           { apply elem_of_present.
             apply (list_elem_of_lookup (rolling_window (Z.to_nat w) s i) (fin x)).
             apply rolling_window_self; [lia | done]. }
           destruct (series_min_spec _ x Hx) as (mn & Hmn & Hle & _).
           destruct (series_max_spec _ x Hx) as (mx & Hmx & Hge & _).
           rewrite Hmn, Hmx. unfold is_zero. simpl.
           destruct (Qeq_bool (mx - mn) 0) eqn:Hz; simpl; [done |].
           by rewrite Hz.
        -- split; [| done]. intros Hn. apply lookup_lt_Some in Hn.
           rewrite !length_series_binop, length_fmap, !length_series_binop,
             !length_rolling in Hn.
           apply lookup_ge_None in Hi. lia.
    + rewrite normalize_series_minmax_falsy by done.
      split; [by left |]. split; [unfold series_scalar; by rewrite !length_fmap |].
      intros i. destruct (s !! i) as [[x|]|] eqn:Hi.
      * destruct (normalize_series_lookup s i x Hi)
          as (norm & mn & mx & v & Hnorm & _ & _ & Hv & _).
        rewrite normalize_series_minmax_global in Hnorm.
        injection Hnorm as <-. by rewrite Hv.
      * unfold series_scalar. by rewrite !list_lookup_fmap, Hi.
      * unfold series_scalar. by rewrite !list_lookup_fmap, Hi.
  - unfold normalize_series. destruct (decide (method = "minmax")); [done |].
    destruct (decide (method = "percentile")) as [-> | Hp].
    + split; [by right |]. unfold rank_pct. split; [by rewrite length_fmap |].
      intros i. rewrite list_lookup_fmap.
      by destruct (s !! i) as [[x|]|].
    + eexists. split; [done |]. by left.
Qed.

(** Rolling min-max scaling: a value that is present is scaled into
    [0, 1] by the extremes of its own window.  The first position, and
    every position when the window is 1, is scaled to 0, since the
    window then holds that value alone. *)
Theorem normalize_series_rolling_unit_interval (s : Series) (w : Z) (i : nat) (x : Q) :
  (0 < w)%Z → s !! i = Some (fin x) →
  ∃ (norm : Series) (v : Q),
    normalize_series s "minmax" (Some w) = Ok norm
    ∧ norm !! i = Some (fin v)
    ∧ 0 <= v ∧ v <= 1
    ∧ (i = 0%nat ∨ w = 1%Z → v == 0).
Proof.
  intros Hw Hi.
  destruct (normalize_rolling_lookup s w i (fin x) Hw Hi) as (norm & Hnorm & _ & Hlook).
  assert (Hx : x ∈ present (rolling_window (Z.to_nat w) s i)).
  { apply elem_of_present.
    apply (list_elem_of_lookup (rolling_window (Z.to_nat w) s i) (fin x)).
    apply rolling_window_self; [lia | done]. }
  destruct (series_min_spec _ x Hx) as (mn & Hmn & Hle & _).
  destruct (series_max_spec _ x Hx) as (mx & Hmx & Hge & _).
  destruct (minmax_scale_unit x mn mx Hle Hge) as (Hr & H0 & H1 & _).
  exists norm, ((x - mn) / (if Qeq_bool (mx - mn) 0 then 1 else mx - mn)).
  split_and!; [done | | done | done |].
  - rewrite Hlook, Hmn, Hmx. unfold is_zero. simpl.
    destruct (Qeq_bool (mx - mn) 0) eqn:Hz; simpl; [done | by rewrite Hz].
  - intros Hedge.
    assert (Hwin : rolling_window (Z.to_nat w) s i = [fin x]).
    { apply rolling_window_single; [lia | | done].
      destruct Hedge as [-> | ->]; [by left | by right]. }
    rewrite Hwin in Hmn, Hmx.
    change (fin x = fin mn) in Hmn. change (fin x = fin mx) in Hmx.
    injection Hmn as <-. injection Hmx as <-.
    rewrite (proj2 (Qeq_bool_iff (x - x) 0)) by lra. field.
Qed.

Lemma normalize_series_rolling_unit_interval_witness :
  ∃ (norm : Series) (v : Q),
    normalize_series [fin 4; NaN; fin 1; fin 3] "minmax" (Some 2%Z) = Ok norm
    ∧ norm !! 3%nat = Some (fin v)
    ∧ 0 <= v ∧ v <= 1
    ∧ (3%nat = 0%nat ∨ 2%Z = 1%Z → v == 0).
Proof.
  apply (normalize_series_rolling_unit_interval [fin 4; NaN; fin 1; fin 3] 2 3 3);
    [lia | reflexivity].
Defined.



(** ** Percentile ranks *)

Lemma countb_nonneg (p : Q → bool) (l : list Q) : 0 <= countb p l.
Proof. unfold countb. change 0 with (inject_Z 0). rewrite <- Zle_Qle. lia. Qed.

Lemma countb_nil (p : Q → bool) : countb p [] == 0.
Proof. reflexivity. Qed.

Lemma countb_cons (p : Q → bool) (y : Q) (l : list Q) :
  countb p (y :: l) == (if p y then 1 else 0) + countb p l.
Proof.
  unfold countb. cbn [List.filter]. destruct (p y); cbn [length].
  - rewrite Nat2Z.inj_succ, <- Z.add_1_l, inject_Z_plus. reflexivity.
  - by rewrite Qplus_0_l.
Qed.

Lemma countb_lt_eq_le (x : Q) (l : list Q) :
  countb (λ y, Qltb y x) l + countb (λ y, Qeq_bool y x) l <= countb (λ _, true) l.
Proof.
  induction l as [|z l IH]; [by vm_compute |].
  rewrite !countb_cons.
  destruct (Qltb z x) eqn:Hlt, (Qeq_bool z x) eqn:Heq; reflect_comparisons;
    [apply Qeq_bool_iff in Heq; lra | lra..].
Qed.

Lemma countb_eq_pos (x : Q) (l : list Q) :
  x ∈ l → 1 <= countb (λ y, Qeq_bool y x) l.
Proof.
  induction l as [|z l IH]; [by intros ?%elem_of_nil |].
  intros [-> | Hin]%elem_of_cons; rewrite countb_cons.
  - rewrite Qeq_bool_refl. pose proof (countb_nonneg (λ y, Qeq_bool y z) l). lra.
  - specialize (IH Hin). destruct (Qeq_bool z x); lra.
Qed.

Lemma countb_lt_mono (x y : Q) (l : list Q) :
  x < y →
  countb (λ z, Qltb z x) l + countb (λ z, Qeq_bool z x) l <= countb (λ z, Qltb z y) l.
Proof.
  intros Hxy. induction l as [|z l IH]; [by vm_compute |].
  rewrite !countb_cons.
  destruct (Qltb z x) eqn:Hlt, (Qeq_bool z x) eqn:Heq, (Qltb z y) eqn:Hlty;
    reflect_comparisons;
    try (apply Qeq_bool_iff in Heq); first [lra | exfalso; lra].
Qed.

Lemma countb_ext (p q : Q → bool) (l : list Q) :
  (∀ z, p z = q z) → countb p l = countb q l.
Proof.
  intros Hpq. unfold countb. do 3 f_equal.
  induction l as [|z l IH]; [done |]. cbn [List.filter]. by rewrite Hpq, IH.
Qed.

(** Percentile ranks lie in (0, 1] and keep the order of the values,
    strictly: a value that is present gets the mean rank of its ties
    divided by the number of values present. *)
Theorem percentile_rank_bounds_and_order
    (s : Series) (window : option Z) (i j : nat) (x y : Q) :
  s !! i = Some (fin x) → s !! j = Some (fin y) →
  ∃ (norm : Series) (vi vj : Q),
    normalize_series s "percentile" window = Ok norm
    ∧ norm !! i = Some (fin vi) ∧ norm !! j = Some (fin vj)
    ∧ 0 < vi ∧ vi <= 1
    ∧ (x <= y → vi <= vj)
    ∧ (x < y → vi < vj).
Proof.
  intros Hi Hj.
  assert (Hx : x ∈ present s) by (apply elem_of_present; eauto).
  assert (Hy : y ∈ present s) by (apply elem_of_present; eauto).
  exists (rank_pct s). eexists _, _.
  split; [reflexivity |].
  split; [unfold rank_pct; rewrite list_lookup_fmap, Hi; reflexivity |].
  split; [unfold rank_pct; rewrite list_lookup_fmap, Hj; reflexivity |].
  pose proof (countb_nonneg (λ z, Qltb z x) (present s)) as HLx.
  pose proof (countb_nonneg (λ z, Qltb z y) (present s)) as HLy.
  pose proof (countb_eq_pos x (present s) Hx) as HEx.
  pose proof (countb_eq_pos y (present s) Hy) as HEy.
  pose proof (countb_lt_eq_le x (present s)) as HNx.
  pose proof (countb_lt_mono x y (present s)) as Hmono.
  assert (Hext : x == y →
    countb (λ z, Qltb z x) (present s) = countb (λ z, Qltb z y) (present s)
    ∧ countb (λ z, Qeq_bool z x) (present s) = countb (λ z, Qeq_bool z y) (present s)).
  { intros Hxy. split; apply countb_ext; intros z.
    - destruct (Qltb z x) eqn:H1, (Qltb z y) eqn:H2; reflect_comparisons;
        first [done | exfalso; lra].
    - destruct (Qeq_bool z x) eqn:H1, (Qeq_bool z y) eqn:H2; try done;
        [apply Qeq_bool_iff in H1; apply Qeq_bool_false in H2
        | apply Qeq_bool_false in H1; apply Qeq_bool_iff in H2]; exfalso; lra. }
  set (Lx := countb (λ z, Qltb z x) (present s)) in *.
  set (Ly := countb (λ z, Qltb z y) (present s)) in *.
  set (Ex := countb (λ z, Qeq_bool z x) (present s)) in *.
  set (Ey := countb (λ z, Qeq_bool z y) (present s)) in *.
  set (N := countb (λ _, true) (present s)) in *.
  assert (Hhx : (Ex + 1) / 2 * 2 == Ex + 1) by field.
  assert (Hhy : (Ey + 1) / 2 * 2 == Ey + 1) by field.
  set (hx := (Ex + 1) / 2) in *. set (hy := (Ey + 1) / 2) in *.
  clearbody Lx Ly Ex Ey N hx hy.
  assert (HN : 0 < N) by lra.
  assert (Hstrict : x < y → (Lx + hx) / N < (Ly + hy) / N).
  { intros Hxy. specialize (Hmono Hxy). apply Qdiv_lt_mono_num; lra. }
  split_and!.
  - apply Qlt_shift_div_l; lra.
  - apply Qle_shift_div_r; lra.
  - intros [Hlt | Heq]%Qle_lt_or_eq.
    + apply Qlt_le_weak. by apply Hstrict.
    + destruct (Hext Heq) as [-> ->].
      assert (Hh : hx == hy) by lra.
      apply Qdiv_le_mono_num; lra.
  - exact Hstrict.
Qed.

Lemma percentile_rank_bounds_and_order_witness :
  ∃ (norm : Series) (vi vj : Q),
    normalize_series [fin 2; NaN; fin 5; fin 2] "percentile" None = Ok norm
    ∧ norm !! 0%nat = Some (fin vi) ∧ norm !! 2%nat = Some (fin vj)
    ∧ 0 < vi ∧ vi <= 1
    ∧ (2 <= 5 → vi <= vj)
    ∧ (2 < 5 → vi < vj).
Proof.
  apply (percentile_rank_bounds_and_order [fin 2; NaN; fin 5; fin 2] None 0 2 2 5);
    reflexivity.
Defined.

(** * Composite imbalance score *)




(** * [add_efficiency_metrics] in place *)

Lemma calculate_power_intensity_factor_cols (t t' : DataFrame) :
  t' !! "gpu_model" = t !! "gpu_model" →
  t' !! "power_usage_watts" = t !! "power_usage_watts" →
  calculate_power_intensity_factor t' "power_usage_watts" "gpu_model"
  = calculate_power_intensity_factor t "power_usage_watts" "gpu_model".
Proof.
  intros Hm Hp.
  unfold calculate_power_intensity_factor, calculate_power_intensity_factor_with,
    getnum, getcol.
  by rewrite Hm, Hp.
Qed.

Lemma with_derived_columns_other (t : DataFrame)
    (pif realized rfu gap pressure : Series) (labels : list string) (c : string) :
  c ∉ derived_columns →
  with_derived_columns t pif realized rfu gap pressure labels !! c = t !! c.
Proof.
  intros Hc. unfold derived_columns in Hc.
  rewrite !not_elem_of_cons in Hc. destruct_and!.
  unfold with_derived_columns. by rewrite !lookup_insert_ne.
Qed.

Lemma with_derived_columns_derived (t : DataFrame)
    (pif realized rfu gap pressure : Series) (labels : list string) (c : string) :
  c ∈ derived_columns →
  is_Some (with_derived_columns t pif realized rfu gap pressure labels !! c).
Proof.
  intros Hc. unfold derived_columns in Hc.
  rewrite !elem_of_cons, elem_of_nil in Hc. unfold with_derived_columns.
  destruct_or!; subst; simplify_map_eq; by eauto.
Qed.

(** The run of the in-place computation on a table of GPU telemetry. *)
Lemma add_efficiency_metrics_inplace_run
    (h : gmap loc DataFrame) (df : loc) (t : DataFrame) (n : nat) :
  dcgm_table n t →
  ∃ (util used free pif realized rfu : Series) (labels : list string),
    t !! "gpu_utilization_pct" = Some (NumCol util)
    ∧ t !! "memory_used_mb" = Some (NumCol used)
    ∧ t !! "memory_free_mb" = Some (NumCol free)
    ∧ calculate_power_intensity_factor t "power_usage_watts" "gpu_model" = Ok pif
    ∧ calculate_realized_tflops t pif "gpu_model" = Ok realized
    ∧ calculate_rfu t realized "gpu_model" = Ok rfu
    ∧ classify_efficiency util pif = Ok labels
    ∧ add_efficiency_metrics df true (<[df := t]> h)
      = (Ok df,
         <[df := with_derived_columns t pif realized rfu
                   (calculate_efficiency_gap util rfu)
                   (calculate_memory_pressure used free) labels]> h)
    ∧ dcgm_table n (with_derived_columns t pif realized rfu
                      (calculate_efficiency_gap util rfu)
                      (calculate_memory_pressure used free) labels).
Proof.
  intros ([power Hpower] & [models Hmodels] & [util Hutil] & [used Hused]
          & [free Hfree] & Hlen).
  destruct (calculate_power_intensity_factor_total t models power Hmodels Hpower)
    as (pif & Hpif & Hpif_len).
  destruct (calculate_realized_tflops_total t models pif Hmodels)
    as (realized & Hrealized & Hrealized_len).
  destruct (calculate_rfu_total t models realized Hmodels)
    as (rfu & Hrfu & Hrfu_len).
  pose proof (Hlen _ _ Hpower) as Hn1. pose proof (Hlen _ _ Hmodels) as Hn2.
  pose proof (Hlen _ _ Hutil) as Hn3. pose proof (Hlen _ _ Hused) as Hn4.
  pose proof (Hlen _ _ Hfree) as Hn5. simpl in Hn1, Hn3, Hn4, Hn5.
  destruct (classify_efficiency_total util pif) as [labels Hlabels]; [lia |].
  exists util, used, free, pif, realized, rfu, labels.
  split_and!; [done.. | |].
  - unfold add_efficiency_metrics, with_derived_columns. cbn [negb].
    rewrite (M_bind_ok (mret df) _ _ _ df eq_refl).
    rewrite (M_bind_ok _ _ _ _ _ (deref_insert _ _ _)).
    rewrite (M_bind_lift _ _ _ pif) by done.
    rewrite (M_bind_ok _ _ _ _ _ (setcol_insert _ _ _ _ _)).
    rewrite (M_bind_ok _ _ _ _ _ (deref_insert _ _ _)).
    rewrite (M_bind_lift _ _ _ pif) by (apply getnum_lookup; by simplify_map_eq).
    rewrite (M_bind_lift _ _ _ realized)
      by (by rewrite (calculate_realized_tflops_model_col t) by by simplify_map_eq).
    rewrite (M_bind_ok _ _ _ _ _ (setcol_insert _ _ _ _ _)).
    rewrite (M_bind_ok _ _ _ _ _ (deref_insert _ _ _)).
    rewrite (M_bind_lift _ _ _ realized)
      by (apply getnum_lookup; by simplify_map_eq).
    rewrite (M_bind_lift _ _ _ rfu)
      by (by rewrite (calculate_rfu_model_col t) by by simplify_map_eq).
    rewrite (M_bind_ok _ _ _ _ _ (setcol_insert _ _ _ _ _)).
    rewrite (M_bind_ok _ _ _ _ _ (deref_insert _ _ _)).
    rewrite (M_bind_lift _ _ _ util) by (apply getnum_lookup; by simplify_map_eq).
    rewrite (M_bind_lift _ _ _ rfu) by (apply getnum_lookup; by simplify_map_eq).
    rewrite (M_bind_ok _ _ _ _ _ (setcol_insert _ _ _ _ _)).
    rewrite (M_bind_ok _ _ _ _ _ (deref_insert _ _ _)).
    rewrite (M_bind_lift _ _ _ used) by (apply getnum_lookup; by simplify_map_eq).
    rewrite (M_bind_lift _ _ _ free) by (apply getnum_lookup; by simplify_map_eq).
    rewrite (M_bind_ok _ _ _ _ _ (setcol_insert _ _ _ _ _)).
    rewrite (M_bind_ok _ _ _ _ _ (deref_insert _ _ _)).
    rewrite (M_bind_lift _ _ _ util) by (apply getnum_lookup; by simplify_map_eq).
    rewrite (M_bind_lift _ _ _ pif) by (apply getnum_lookup; by simplify_map_eq).
    rewrite (M_bind_lift _ _ _ labels) by done.
    rewrite (M_bind_ok _ _ _ _ _ (setcol_insert _ _ _ _ _)).
    reflexivity.
  - assert (Hlabels_len : length labels = n).
    { unfold classify_efficiency in Hlabels. case_decide; [| done].
      injection Hlabels as <-. lia. }
    unfold dcgm_table.
    rewrite !with_derived_columns_other
      by (unfold derived_columns; rewrite !not_elem_of_cons, elem_of_nil; naive_solver).
    split_and!; [by eauto.. |].
    intros c col. unfold with_derived_columns.
    rewrite !lookup_insert_Some.
    intros Hc. repeat (destruct_or! || destruct_and!); subst; cbn [column_length];
      first
        [ by eapply Hlen
        | unfold calculate_memory_pressure, calculate_efficiency_gap, fillna,
            series_scalar; cbv zeta;
          rewrite ?length_fmap, ?length_series_binop; lia ].
Qed.

(** Called with [inplace=True] on a table of the store,
    [add_efficiency_metrics] changes no other table, whether it returns
    or raises, and creates no object.  On a table of GPU telemetry with
    [n] rows it returns its argument, whose table has gained the six
    derived columns, each with [n] rows, every other column being as it
    was. *)
Theorem add_efficiency_metrics_inplace_updates_argument
    (h : gmap loc DataFrame) (df : loc) (t : DataFrame) (n : nat) :
  h !! df = Some t →
  (∀ l, l ≠ df → (add_efficiency_metrics df true h).2 !! l = h !! l)
  ∧ (dcgm_table n t →
     ∃ t' : DataFrame,
       add_efficiency_metrics df true h = (Ok df, <[df := t']> h)
       ∧ dom (<[df := t']> h) = dom h
       ∧ dcgm_table n t'
       ∧ (∀ c, c ∉ derived_columns → t' !! c = t !! c)
       ∧ (∀ c, c ∈ derived_columns → is_Some (t' !! c))).
Proof.
  intros Hdf. split.
  - intros l Hl. unfold add_efficiency_metrics. cbn [negb].
    rewrite (M_bind_ok (mret df) _ _ _ df eq_refl).
    match goal with
    | |- (?m _).2 !! _ = _ => assert (Hbody : touches_only df m) by touches_only_steps
    end.
    by apply Hbody.
  - intros Htable.
    destruct (add_efficiency_metrics_inplace_run h df t n Htable)
      as (util & used & free & pif & realized & rfu & labels
          & _ & _ & _ & _ & _ & _ & _ & Hrun & Htable').
    rewrite (insert_id h df t Hdf) in Hrun.
    eexists. split_and!; [exact Hrun | | exact Htable' | |].
    + rewrite dom_insert_L. apply elem_of_dom_2 in Hdf. set_solver.
    + apply with_derived_columns_other.
    + apply with_derived_columns_derived.
Qed.

Lemma add_efficiency_metrics_inplace_updates_argument_witness :
  (∀ l, l ≠ 1%positive →
        (add_efficiency_metrics 1%positive true {[ 1%positive := sample_dcgm ]}).2 !! l
        = ({[ 1%positive := sample_dcgm ]} : gmap loc DataFrame) !! l)
  ∧ ∃ t' : DataFrame,
      add_efficiency_metrics 1%positive true {[ 1%positive := sample_dcgm ]}
      = (Ok 1%positive, <[1%positive := t']> {[ 1%positive := sample_dcgm ]})
      ∧ dcgm_table 2 t'
      ∧ (∀ c, c ∈ derived_columns → is_Some (t' !! c)).
Proof.
  destruct (add_efficiency_metrics_inplace_updates_argument
              {[ 1%positive := sample_dcgm ]} 1%positive sample_dcgm 2
              (lookup_singleton_eq _ _))
    as [Hframe Hrun].
  split; [exact Hframe |].
  destruct (Hrun sample_dcgm_table) as (t' & Ht' & _ & Htable & _ & Hderived).
  by exists t'.
Defined.

(** Running [add_efficiency_metrics] in place a second time changes
    nothing: the derived columns are computed from the columns of the
    telemetry alone, which the first run leaves as they were. *)
Theorem add_efficiency_metrics_inplace_idempotent
    (h : gmap loc DataFrame) (df : loc) (t : DataFrame) (n : nat) :
  h !! df = Some t → dcgm_table n t →
  ∃ h1 : gmap loc DataFrame,
    add_efficiency_metrics df true h = (Ok df, h1)
    ∧ add_efficiency_metrics df true h1 = (Ok df, h1).
Proof.
  intros Hdf Htable.
  destruct (add_efficiency_metrics_inplace_run h df t n Htable)
    as (util & used & free & pif & realized & rfu & labels
        & Hutil & Hused & Hfree & Hpif & Hrealized & Hrfu & Hlabels
        & Hrun & Htable').
  rewrite (insert_id h df t Hdf) in Hrun.
  eexists. split; [exact Hrun |].
  set (t' := with_derived_columns t pif realized rfu
               (calculate_efficiency_gap util rfu)
               (calculate_memory_pressure used free) labels) in *.
  assert (Hsame : ∀ c, c ∉ derived_columns → t' !! c = t !! c)
    by apply with_derived_columns_other.
  assert (Hbase : ∀ c, c ∈ [ "gpu_model"; "power_usage_watts"; "gpu_utilization_pct";
                             "memory_used_mb"; "memory_free_mb" ] →
                       t' !! c = t !! c).
  { intros c Hc. apply Hsame. unfold derived_columns.
    rewrite !elem_of_cons, elem_of_nil in Hc.
    rewrite !not_elem_of_cons, elem_of_nil. naive_solver. }
  destruct (add_efficiency_metrics_inplace_run h df t' n Htable')
    as (util' & used' & free' & pif' & realized' & rfu' & labels'
        & Hutil' & Hused' & Hfree' & Hpif' & Hrealized' & Hrfu' & Hlabels'
        & Hrun' & _).
  rewrite (Hbase "gpu_utilization_pct"), Hutil in Hutil' by set_solver.
  rewrite (Hbase "memory_used_mb"), Hused in Hused' by set_solver.
  rewrite (Hbase "memory_free_mb"), Hfree in Hfree' by set_solver.
  simplify_eq.
  rewrite (calculate_power_intensity_factor_cols t t'), Hpif in Hpif'
    by (apply Hbase; set_solver).
  simplify_eq.
  rewrite (calculate_realized_tflops_model_col t t'), Hrealized in Hrealized'
    by (apply Hbase; set_solver).
  simplify_eq.
  rewrite (calculate_rfu_model_col t t'), Hrfu in Hrfu'
    by (apply Hbase; set_solver).
  simplify_eq.
  rewrite Hlabels in Hlabels'. simplify_eq.
  rewrite Hrun'. do 2 f_equal.
  apply map_eq. intros c. unfold t', with_derived_columns.
  destruct (decide (c = "efficiency_class")) as [-> | ?]; [by simplify_map_eq |].
  destruct (decide (c = "memory_pressure_pct")) as [-> | ?]; [by simplify_map_eq |].
  destruct (decide (c = "efficiency_gap")) as [-> | ?]; [by simplify_map_eq |].
  destruct (decide (c = "rfu_pct")) as [-> | ?]; [by simplify_map_eq |].
  destruct (decide (c = "realized_tflops")) as [-> | ?]; [by simplify_map_eq |].
  destruct (decide (c = "power_intensity_factor")) as [-> | ?]; [by simplify_map_eq |].
  by rewrite !lookup_insert_ne.
Qed.

Lemma add_efficiency_metrics_inplace_idempotent_witness :
  ∃ h1 : gmap loc DataFrame,
    add_efficiency_metrics 1%positive true {[ 1%positive := sample_dcgm ]}
    = (Ok 1%positive, h1)
    ∧ add_efficiency_metrics 1%positive true h1 = (Ok 1%positive, h1).
Proof.
  exact (add_efficiency_metrics_inplace_idempotent
           {[ 1%positive := sample_dcgm ]} 1%positive sample_dcgm 2
           (lookup_singleton_eq _ _) sample_dcgm_table).
Defined.

(** * Aggregation and the unified model *)

Lemma result_bind_Ok_inv {A B : Type} (m : result A) (k : A → result B) (b : B) :
  m ≫= k = Ok b → ∃ a, m = Ok a ∧ k a = Ok b.
Proof. destruct m as [a|e]; [by exists a | done]. Qed.

Lemma Ok_inj {A : Type} (x y : A) : Ok x = Ok y → x = y.
Proof. by intros [= ->]. Qed.

Lemma fillna_lookup_not_NaN (v : Q) (s : Series) (i : nat) :
  fillna v s !! i ≠ Some NaN.
Proof.
  unfold fillna. rewrite list_lookup_fmap. by destruct (s !! i) as [[x|]|].
Qed.

Lemma fillna_columns_cons (df : DataFrame) (c : string) (v : Q)
    (values : list (string * Q)) :
  fillna_columns df ((c, v) :: values)
  = fillna_columns (match df !! c with
                    | Some (NumCol s) => <[c := NumCol (fillna v s)]> df
                    | _ => df
                    end) values.
Proof. reflexivity. Qed.

(** A column without NaN keeps being so through the fills of
    [fillna_columns]. *)
Lemma fillna_columns_keeps_filled (df : DataFrame) (values : list (string * Q))
    (c : string) :
  (∀ s i, df !! c = Some (NumCol s) → s !! i ≠ Some NaN) →
  ∀ s i, fillna_columns df values !! c = Some (NumCol s) → s !! i ≠ Some NaN.
Proof.
  revert df. induction values as [|[c' v'] values IH]; intros df Hdf; [done |].
  rewrite fillna_columns_cons. apply IH. intros s i.
  destruct (df !! c') as [[s'| |]|] eqn:Hc'; try apply Hdf.
  destruct (decide (c = c')) as [-> | Hne].
  - rewrite lookup_insert_eq. intros [= <-]. apply fillna_lookup_not_NaN.
  - rewrite lookup_insert_ne by done. apply Hdf.
Qed.

Lemma fillna_columns_filled (df : DataFrame) (values : list (string * Q))
    (c : string) (v : Q) :
  (c, v) ∈ values →
  ∀ s i, fillna_columns df values !! c = Some (NumCol s) → s !! i ≠ Some NaN.
Proof.
  revert df. induction values as [|[c' v'] values IH]; intros df Hin.
  - by apply elem_of_nil in Hin.
  - apply elem_of_cons in Hin as [[= <- <-] | Hin].
    + rewrite fillna_columns_cons. apply fillna_columns_keeps_filled.
      intros s i. destruct (df !! c) as [[s'| |]|] eqn:Hc.
      * rewrite lookup_insert_eq. intros [= <-]. apply fillna_lookup_not_NaN.
      * by rewrite Hc.
      * by rewrite Hc.
      * by rewrite Hc.
    + rewrite fillna_columns_cons. by apply IH.
Qed.

(** A column that is not named keeps its values. *)
Lemma fillna_columns_other (df : DataFrame) (values : list (string * Q))
    (c : string) :
  c ∉ values.*1 → fillna_columns df values !! c = df !! c.
Proof.
  revert df. induction values as [|[c' v'] values IH]; intros df Hc; [done |].
  rewrite fmap_cons, not_elem_of_cons in Hc. destruct Hc as [Hne Hc].
  rewrite fillna_columns_cons, IH by done. simpl in Hne.
  destruct (df !! c') as [[s'| |]|]; try done.
  by rewrite lookup_insert_ne.
Qed.

(** In the table that [build_unified_model] returns, the four demand
    columns hold no missing value: a row whose key has capacity or
    telemetry and no demand has 0 there. *)
Theorem build_unified_model_fills_demand
    (to_datetime : Column → result (list (option Z)))
    (kueue_df dcgm_df nodepool_df : DataFrame) (time_col join_col : string)
    (unified : DataFrame) (c : string) (s : Series) (i : nat) :
  build_unified_model to_datetime kueue_df dcgm_df nodepool_df time_col join_col
  = Ok unified →
  c ∈ demand_columns →
  unified !! c = Some (NumCol s) →
  s !! i ≠ Some NaN.
Proof.
  unfold build_unified_model. intros Hrun Hc.
  apply result_bind_Ok_inv in Hrun as (kueue_hourly & _ & Hrun).
  apply result_bind_Ok_inv in Hrun as (dcgm_hourly & _ & Hrun).
  apply result_bind_Ok_inv in Hrun as (nodepool_hourly & _ & Hrun).
  apply result_bind_Ok_inv in Hrun as (joined & _ & Hrun).
  apply result_bind_Ok_inv in Hrun as (joined' & _ & Hrun).
  apply Ok_inj in Hrun. rewrite <- Hrun.
  unfold demand_columns in Hc.
  apply (fillna_columns_filled _ _ c 0).
  rewrite !elem_of_cons, elem_of_nil in Hc. rewrite !elem_of_cons.
  destruct_or!; subst; tauto.
Qed.

Lemma build_unified_model_fills_demand_witness :
  ∃ (unified : DataFrame) (s : Series),
    build_unified_model no_parser demand_in_a telemetry_in_a capacity_in_a_and_b
      "timestamp_hour" "nodegroup" = Ok unified
    ∧ unified !! "pending_workloads" = Some (NumCol s)
    ∧ s !! 1%nat ≠ Some NaN.
Proof.
  eexists _, _. split; [reflexivity |]. split; [reflexivity |].
  eapply (build_unified_model_fills_demand no_parser
            demand_in_a telemetry_in_a capacity_in_a_and_b
            "timestamp_hour" "nodegroup" _ "pending_workloads");
    [reflexivity | | reflexivity].
  unfold demand_columns. set_solver.
Defined.

(** ** Hourly aggregation *)




